(** * Health-check endpoints of the Cloud SQL Auth proxy

    A shallow embedding of package [healthcheck] in both of its versions:

    - the [Server] version (NewServer, Close, NotifyStarted, isLive, isReady),
      whose mutex is a field of the [Server] object and whose routes live on
      a private [http.ServeMux];
    - the [HC] version (NewHealthCheck, CloseHealthCheck,
      NotifyReadyForConnections, livenessTest, readinessTest), whose three
      mutexes are package-level variables and whose routes are registered on
      [http.DefaultServeMux].

    Go functions are written as programs over a small instruction set
    ([Event]): every load, store, lock operation, log call and library call
    of the source is one instruction, in source order.  One definition of a
    function then has two readings: [run] executes it alone against a
    [World], and [pstep] interleaves the instructions of several goroutines. *)

From Stdlib Require Import ZArith NArith String List Lia.
From stdpp Require Import base list strings.

Local Open Scope string_scope.
Local Open Scope list_scope.

(** ** Data model *)

(** A pointer is an index into the heap of its object type; [None] is [nil]. *)
Definition ptr := option nat.

Definition deref {T : Type} (heap : list T) (p : ptr) : option T :=
  match p with
  | Some l => heap !! l
  | None => None
  end.

(** [&T{...}]: the fresh object is placed at the end of its heap. *)
Definition alloc {T : Type} (heap : list T) (x : T) : list T * ptr :=
  (heap ++ [x], Some (length heap)).

(** The fields of [proxy.Client] that the package reads, both [uint64]. They
    are only loaded and compared, never computed with, so no wrap-around
    arises and [N] carries them. *)
Record Client := {
  MaxConnections : N;
  ConnectionsCounter : N
}.

(** [type Server struct]. A [sync.Mutex] is [true] while it is held. *)
Record Server := {
  startedL : bool;
  started : bool;
  port : string;
  srv : ptr
}.

(** [type HC struct]; its fields carry the prefix [hc_] because [started] and
    [srv] already name the fields of [Server]. *)
Record HC := {
  hc_live : bool;
  hc_ready : bool;
  hc_started : bool;
  hc_srv : ptr
}.

(** Go [error] values that occur; [nil] is [None] of [option error]. *)
Inductive error :=
| ErrServerClosed
| DeadlineExceeded
| Canceled
| ErrOS (msg : string).

Definition error_eqb (a b : error) : bool :=
  match a, b with
  | ErrServerClosed, ErrServerClosed => true
  | DeadlineExceeded, DeadlineExceeded => true
  | Canceled, Canceled => true
  | ErrOS m, ErrOS m' => String.eqb m m'
  | _, _ => false
  end.

(** [err == target] on error values, [nil] included. *)
Definition err_eqb (err target : option error) : bool :=
  match err, target with
  | Some e, Some t => error_eqb e t
  | None, None => true
  | _, _ => false
  end.

(** [errors.Is(err, target)]: none of these values wraps another, so it is
    the comparison of a non-nil [err] with [target]. *)
Definition errors_Is (err : option error) (target : error) : bool :=
  match err with
  | Some e => error_eqb e target
  | None => false
  end.

(** [err != nil] *)
Definition not_nil {T : Type} (x : option T) : bool :=
  match x with
  | Some _ => true
  | None => false
  end.

(** [context.Context], by the tick at which [Done] fires. *)
Inductive Context :=
| Background
| WithDeadline (ticks : nat)
| Cancelled.

Definition ctx_done (ctx : Context) : option nat :=
  match ctx with
  | Background => None
  | WithDeadline d => Some d
  | Cancelled => Some 0
  end.

Definition ctx_Err (ctx : Context) : option error :=
  match ctx with
  | Background => None
  | WithDeadline _ => Some DeadlineExceeded
  | Cancelled => Some Canceled
  end.

(** [net.Listener] for ["tcp"], named by the address it is bound to. *)
Inductive Listener := TCPListener (addr : string).

(** The four closures passed to [HandleFunc], with the variables they
    capture. *)
Inductive HandlerFunc :=
| readinessHandler (c hcServer : ptr)
| livenessHandler
| hcReadinessHandler (proxyClient hc : ptr)
| hcLivenessHandler (hc : ptr).

(** The two closures started with [go]. *)
Inductive Goroutine :=
| serveTask (srv : ptr) (ln : option Listener)
| listenAndServeTask (srv : ptr).

Definition ServeMux := list (string * HandlerFunc).

(** [http.Server]: the two fields the package sets, the listeners [Serve]
    tracks, the shutdown flag, and what the environment has in store for it:
    the error that ends the accept loop, if any, the error of closing the
    listeners, and the tick at which the connections in flight are idle
    ([None]: never). *)
Record http_Server := {
  Addr : string;
  Handler : ptr;
  listeners : list Listener;
  inShutdown : bool;
  acceptErr : option error;
  closeErr : option error;
  drain : option nat
}.

(** [http.ResponseWriter] of one request. *)
Record Response := {
  status : option Z;
  body : string
}.

Definition fresh_response : Response := {| status := None; body := "" |}.

Inductive LogArg :=
| ArgUint (n : N)
| ArgError (e : option error).

(** One call of [logging.Errorf]: the format and its arguments. *)
Definition LogEntry := (string * list LogArg)%type.

Inductive Mutex :=
| ServerStartedL (s : ptr)
| readinessL
| livenessL
| startupL.

(** The state of the process and of the part of the operating system it
    talks to. [netBusy] lists the addresses at which a bind fails, each with
    the message of the system error the bind gets. *)
Record World := {
  clients : list Client;
  servers : list Server;
  hcs : list HC;
  httpServers : list http_Server;
  muxes : list ServeMux;
  DefaultServeMux : ServeMux;
  readinessL_held : bool;
  livenessL_held : bool;
  startupL_held : bool;
  responses : list Response;
  netBusy : list (string * string);
  logged : list LogEntry;
  goroutines : list Goroutine
}.

Definition with_clients (x : list Client) (w : World) : World :=
  {| clients := x; servers := servers w; hcs := hcs w;
     httpServers := httpServers w; muxes := muxes w;
     DefaultServeMux := DefaultServeMux w;
     readinessL_held := readinessL_held w; livenessL_held := livenessL_held w;
     startupL_held := startupL_held w; responses := responses w;
     netBusy := netBusy w; logged := logged w; goroutines := goroutines w |}.

Definition with_servers (x : list Server) (w : World) : World :=
  {| clients := clients w; servers := x; hcs := hcs w;
     httpServers := httpServers w; muxes := muxes w;
     DefaultServeMux := DefaultServeMux w;
     readinessL_held := readinessL_held w; livenessL_held := livenessL_held w;
     startupL_held := startupL_held w; responses := responses w;
     netBusy := netBusy w; logged := logged w; goroutines := goroutines w |}.

Definition with_hcs (x : list HC) (w : World) : World :=
  {| clients := clients w; servers := servers w; hcs := x;
     httpServers := httpServers w; muxes := muxes w;
     DefaultServeMux := DefaultServeMux w;
     readinessL_held := readinessL_held w; livenessL_held := livenessL_held w;
     startupL_held := startupL_held w; responses := responses w;
     netBusy := netBusy w; logged := logged w; goroutines := goroutines w |}.

Definition with_httpServers (x : list http_Server) (w : World) : World :=
  {| clients := clients w; servers := servers w; hcs := hcs w;
     httpServers := x; muxes := muxes w;
     DefaultServeMux := DefaultServeMux w;
     readinessL_held := readinessL_held w; livenessL_held := livenessL_held w;
     startupL_held := startupL_held w; responses := responses w;
     netBusy := netBusy w; logged := logged w; goroutines := goroutines w |}.

Definition with_muxes (x : list ServeMux) (w : World) : World :=
  {| clients := clients w; servers := servers w; hcs := hcs w;
     httpServers := httpServers w; muxes := x;
     DefaultServeMux := DefaultServeMux w;
     readinessL_held := readinessL_held w; livenessL_held := livenessL_held w;
     startupL_held := startupL_held w; responses := responses w;
     netBusy := netBusy w; logged := logged w; goroutines := goroutines w |}.

Definition with_DefaultServeMux (x : ServeMux) (w : World) : World :=
  {| clients := clients w; servers := servers w; hcs := hcs w;
     httpServers := httpServers w; muxes := muxes w;
     DefaultServeMux := x;
     readinessL_held := readinessL_held w; livenessL_held := livenessL_held w;
     startupL_held := startupL_held w; responses := responses w;
     netBusy := netBusy w; logged := logged w; goroutines := goroutines w |}.

Definition with_readinessL (x : bool) (w : World) : World :=
  {| clients := clients w; servers := servers w; hcs := hcs w;
     httpServers := httpServers w; muxes := muxes w;
     DefaultServeMux := DefaultServeMux w;
     readinessL_held := x; livenessL_held := livenessL_held w;
     startupL_held := startupL_held w; responses := responses w;
     netBusy := netBusy w; logged := logged w; goroutines := goroutines w |}.

Definition with_livenessL (x : bool) (w : World) : World :=
  {| clients := clients w; servers := servers w; hcs := hcs w;
     httpServers := httpServers w; muxes := muxes w;
     DefaultServeMux := DefaultServeMux w;
     readinessL_held := readinessL_held w; livenessL_held := x;
     startupL_held := startupL_held w; responses := responses w;
     netBusy := netBusy w; logged := logged w; goroutines := goroutines w |}.

Definition with_startupL (x : bool) (w : World) : World :=
  {| clients := clients w; servers := servers w; hcs := hcs w;
     httpServers := httpServers w; muxes := muxes w;
     DefaultServeMux := DefaultServeMux w;
     readinessL_held := readinessL_held w; livenessL_held := livenessL_held w;
     startupL_held := x; responses := responses w;
     netBusy := netBusy w; logged := logged w; goroutines := goroutines w |}.

Definition with_responses (x : list Response) (w : World) : World :=
  {| clients := clients w; servers := servers w; hcs := hcs w;
     httpServers := httpServers w; muxes := muxes w;
     DefaultServeMux := DefaultServeMux w;
     readinessL_held := readinessL_held w; livenessL_held := livenessL_held w;
     startupL_held := startupL_held w; responses := x;
     netBusy := netBusy w; logged := logged w; goroutines := goroutines w |}.

Definition with_netBusy (x : list (string * string)) (w : World) : World :=
  {| clients := clients w; servers := servers w; hcs := hcs w;
     httpServers := httpServers w; muxes := muxes w;
     DefaultServeMux := DefaultServeMux w;
     readinessL_held := readinessL_held w; livenessL_held := livenessL_held w;
     startupL_held := startupL_held w; responses := responses w;
     netBusy := x; logged := logged w; goroutines := goroutines w |}.

Definition with_logged (x : list LogEntry) (w : World) : World :=
  {| clients := clients w; servers := servers w; hcs := hcs w;
     httpServers := httpServers w; muxes := muxes w;
     DefaultServeMux := DefaultServeMux w;
     readinessL_held := readinessL_held w; livenessL_held := livenessL_held w;
     startupL_held := startupL_held w; responses := responses w;
     netBusy := netBusy w; logged := x; goroutines := goroutines w |}.

Definition with_goroutines (x : list Goroutine) (w : World) : World :=
  {| clients := clients w; servers := servers w; hcs := hcs w;
     httpServers := httpServers w; muxes := muxes w;
     DefaultServeMux := DefaultServeMux w;
     readinessL_held := readinessL_held w; livenessL_held := livenessL_held w;
     startupL_held := startupL_held w; responses := responses w;
     netBusy := netBusy w; logged := logged w; goroutines := x |}.

(** A process that has just started: nothing allocated, no lock held,
    nothing registered, every address free. *)
Definition empty_world : World :=
  {| clients := []; servers := []; hcs := []; httpServers := []; muxes := [];
     DefaultServeMux := [];
     readinessL_held := false; livenessL_held := false; startupL_held := false;
     responses := []; netBusy := []; logged := []; goroutines := [] |}.

(** ** Field updates and heap stores *)

Definition set_startedL (b : bool) (s : Server) : Server :=
  {| startedL := b; started := started s; port := port s; srv := srv s |}.

Definition set_started (b : bool) (s : Server) : Server :=
  {| startedL := startedL s; started := b; port := port s; srv := srv s |}.

Definition set_hc_live (b : bool) (h : HC) : HC :=
  {| hc_live := b; hc_ready := hc_ready h; hc_started := hc_started h;
     hc_srv := hc_srv h |}.

Definition set_hc_ready (b : bool) (h : HC) : HC :=
  {| hc_live := hc_live h; hc_ready := b; hc_started := hc_started h;
     hc_srv := hc_srv h |}.

Definition set_hc_started (b : bool) (h : HC) : HC :=
  {| hc_live := hc_live h; hc_ready := hc_ready h; hc_started := b;
     hc_srv := hc_srv h |}.

Definition set_listeners (l : list Listener) (s : http_Server) : http_Server :=
  {| Addr := Addr s; Handler := Handler s; listeners := l;
     inShutdown := inShutdown s; acceptErr := acceptErr s;
     closeErr := closeErr s; drain := drain s |}.

Definition set_inShutdown (b : bool) (s : http_Server) : http_Server :=
  {| Addr := Addr s; Handler := Handler s; listeners := listeners s;
     inShutdown := b; acceptErr := acceptErr s;
     closeErr := closeErr s; drain := drain s |}.

(** Applies [f] to the object [p] points to; [None] when [p] is nil or
    dangling. *)
Definition store {T : Type} (heap : list T) (p : ptr) (f : T -> T)
  : option (list T) :=
  match p with
  | Some l =>
      match heap !! l with
      | Some x => Some (<[l := f x]> heap)
      | None => None
      end
  | None => None
  end.

(** ** Instructions *)

(** What one instruction does to the world: it completes with a value,
    cannot proceed in this world (a held mutex, a serving accept loop), or
    panics. *)
Inductive Outcome (A : Type) : Type :=
| Ok (a : A) (w : World)
| Blocked
| Panic (msg : string).

Arguments Ok {A} a w.
Arguments Blocked {A}.
Arguments Panic {A} msg.

Definition nil_deref {A : Type} : Outcome A :=
  Panic "invalid memory address or nil pointer dereference".

Inductive Event : Type -> Type :=
(* sync.Mutex *)
| MutexLock (m : Mutex) : Event unit
| MutexUnlock (m : Mutex) : Event unit
(* Server *)
| NewServerObj (port : string) (srv : ptr) : Event ptr
| LoadStarted (s : ptr) : Event bool
| StoreStarted (s : ptr) (b : bool) : Event unit
| LoadSrv (s : ptr) : Event ptr
(* HC *)
| NewHCObj (live : bool) (srv : ptr) : Event ptr
| LoadHCStarted (hc : ptr) : Event bool
| StoreHCStarted (hc : ptr) (b : bool) : Event unit
| LoadReady (hc : ptr) : Event bool
| StoreReady (hc : ptr) (b : bool) : Event unit
| LoadLive (hc : ptr) : Event bool
| StoreLive (hc : ptr) (b : bool) : Event unit
| LoadHCSrv (hc : ptr) : Event ptr
(* proxy.Client *)
| LoadMaxConnections (c : ptr) : Event N
| AtomicLoadConnectionsCounter (c : ptr) : Event N
(* logging *)
| Errorf (format : string) (args : list LogArg) : Event unit
(* net and net/http *)
| NewServeMux : Event ptr
| NewHttpServer (addr : string) (handler : ptr) : Event ptr
| MuxHandleFunc (mux : ptr) (pattern : string) (h : HandlerFunc) : Event unit
| HttpHandleFunc (pattern : string) (h : HandlerFunc) : Event unit
| LoadAddr (srv : ptr) : Event string
| LoadInShutdown (srv : ptr) : Event bool
| NetListen (network addr : string) : Event (option Listener * option error)
| TrackListener (srv : ptr) (ln : option Listener) : Event bool
| AcceptLoop (srv : ptr) (ln : option Listener) : Event (option error)
| ListenerClose (ln : option Listener) : Event unit
| BeginShutdown (srv : ptr) : Event (option error)
| AwaitIdle (srv : ptr) (ctx : Context) : Event (option error)
| WriteHeader (w : ptr) (code : Z) : Event unit
| Write (w : ptr) (data : string) : Event unit
(* the go statement *)
| Go (g : Goroutine) : Event unit.

(** *** sync.Mutex *)

Definition mutex_lock (m : Mutex) (w : World) : Outcome unit :=
  match m with
  | ServerStartedL s =>
      match deref (servers w) s, store (servers w) s (set_startedL true) with
      | Some sv, Some heap =>
          if startedL sv then Blocked else Ok tt (with_servers heap w)
      | _, _ => nil_deref
      end
  | readinessL =>
      if readinessL_held w then Blocked else Ok tt (with_readinessL true w)
  | livenessL =>
      if livenessL_held w then Blocked else Ok tt (with_livenessL true w)
  | startupL =>
      if startupL_held w then Blocked else Ok tt (with_startupL true w)
  end.

Definition unlock_of_unlocked {A : Type} : Outcome A :=
  Panic "sync: unlock of unlocked mutex".

Definition mutex_unlock (m : Mutex) (w : World) : Outcome unit :=
  match m with
  | ServerStartedL s =>
      match deref (servers w) s, store (servers w) s (set_startedL false) with
      | Some sv, Some heap =>
          if startedL sv then Ok tt (with_servers heap w)
          else unlock_of_unlocked
      | _, _ => nil_deref
      end
  | readinessL =>
      if readinessL_held w then Ok tt (with_readinessL false w)
      else unlock_of_unlocked
  | livenessL =>
      if livenessL_held w then Ok tt (with_livenessL false w)
      else unlock_of_unlocked
  | startupL =>
      if startupL_held w then Ok tt (with_startupL false w)
      else unlock_of_unlocked
  end.

(** *** Loads and stores *)

Definition load {T A : Type} (heap : list T) (p : ptr) (f : T -> A)
    (w : World) : Outcome A :=
  match deref heap p with
  | Some x => Ok (f x) w
  | None => nil_deref
  end.

Definition store_server (s : ptr) (f : Server -> Server) (w : World)
  : Outcome unit :=
  match store (servers w) s f with
  | Some heap => Ok tt (with_servers heap w)
  | None => nil_deref
  end.

Definition store_hc (hc : ptr) (f : HC -> HC) (w : World) : Outcome unit :=
  match store (hcs w) hc f with
  | Some heap => Ok tt (with_hcs heap w)
  | None => nil_deref
  end.

Definition store_http (srv : ptr) (f : http_Server -> http_Server) (w : World)
  : option World :=
  match store (httpServers w) srv f with
  | Some heap => Some (with_httpServers heap w)
  | None => None
  end.

(** *** net and net/http, after the documentation of the Go library *)

(** The error a bind to [addr] gets, if any. *)
Fixpoint bind_error (busy : list (string * string)) (addr : string)
  : option error :=
  match busy with
  | [] => None
  | (a, msg) :: rest =>
      if String.eqb a addr then Some (ErrOS msg) else bind_error rest addr
  end.

Definition EADDRINUSE : string := "bind: address already in use".

(** [net.Listen]: fails with the error the address has in [netBusy];
    otherwise the address is now in use. *)
Definition net_Listen (addr : string) (w : World)
  : Outcome (option Listener * option error) :=
  match bind_error (netBusy w) addr with
  | Some e => Ok (None, Some e) w
  | None =>
      Ok (Some (TCPListener addr), None)
         (with_netBusy ((addr, EADDRINUSE) :: netBusy w) w)
  end.

Definition release (addr : string) (busy : list (string * string))
  : list (string * string) :=
  filter (fun p => negb (String.eqb (fst p) addr)) busy.

Definition listener_addr (ln : Listener) : string :=
  match ln with TCPListener a => a end.

Definition listener_close (ln : option Listener) (w : World) : Outcome unit :=
  match ln with
  | Some l => Ok tt (with_netBusy (release (listener_addr l) (netBusy w)) w)
  | None => nil_deref
  end.

(** [ServeMux.HandleFunc] panics on an empty pattern and on a pattern that
    is registered already. *)
Definition registered (mux : ServeMux) (pattern : string) : bool :=
  existsb (fun r => String.eqb (fst r) pattern) mux.

Definition register (mux : ServeMux) (pattern : string) (h : HandlerFunc)
  : option ServeMux :=
  if String.eqb pattern "" then None
  else if registered mux pattern then None
  else Some (mux ++ [(pattern, h)]).

Definition mux_HandleFunc (mux : ptr) (pattern : string) (h : HandlerFunc)
    (w : World) : Outcome unit :=
  match mux with
  | Some l =>
      match muxes w !! l with
      | Some m =>
          match register m pattern h with
          | Some m' => Ok tt (with_muxes (<[l := m']> (muxes w)) w)
          | None => Panic "http: invalid pattern or multiple registrations"
          end
      | None => nil_deref
      end
  | None => nil_deref
  end.

Definition http_HandleFunc (pattern : string) (h : HandlerFunc) (w : World)
  : Outcome unit :=
  match register (DefaultServeMux w) pattern h with
  | Some m' => Ok tt (with_DefaultServeMux m' w)
  | None => Panic "http: invalid pattern or multiple registrations"
  end.

(** [Server.Serve] tracks its listener unless the server is shutting down. *)
Definition track_listener (srv : ptr) (ln : option Listener) (w : World)
  : Outcome bool :=
  match deref (httpServers w) srv, ln with
  | Some s, Some l =>
      if inShutdown s then Ok false w
      else
        match store_http srv (set_listeners (l :: listeners s)) w with
        | Some w' => Ok true w'
        | None => nil_deref
        end
  | _, _ => nil_deref
  end.

(** The accept loop of [Server.Serve] ends with [ErrServerClosed] once the
    server is shutting down, and with the error of a failed accept when
    there is one; until then it serves, and does not return. *)
Definition accept_loop (srv : ptr) (w : World) : Outcome (option error) :=
  match deref (httpServers w) srv with
  | Some s =>
      if inShutdown s then Ok (Some ErrServerClosed) w
      else
        match acceptErr s with
        | Some e => Ok (Some e) w
        | None => Blocked
        end
  | None => nil_deref
  end.

Definition release_all (lns : list Listener) (busy : list (string * string))
  : list (string * string) :=
  fold_right (fun l b => release (listener_addr l) b) busy lns.

(** [Server.Shutdown] first marks the server as shutting down and closes
    its listeners, which frees their addresses; the error of that closing is
    kept for later. *)
Definition begin_shutdown (srv : ptr) (w : World) : Outcome (option error) :=
  match deref (httpServers w) srv,
        store_http srv (fun s => set_listeners [] (set_inShutdown true s)) w
  with
  | Some s, Some w' =>
      Ok (closeErr s)
         (with_netBusy (release_all (listeners s) (netBusy w')) w')
  | _, _ => nil_deref
  end.

(** Then it waits: nil once the connections are idle, the error of the
    context when the context is done first; with neither ever happening it
    does not return. *)
Definition await_idle (srv : ptr) (ctx : Context) (w : World)
  : Outcome (option error) :=
  match deref (httpServers w) srv with
  | Some s =>
      match drain s, ctx_done ctx with
      | Some i, Some d => if (i <=? d)%nat then Ok None w else Ok (ctx_Err ctx) w
      | Some _, None => Ok None w
      | None, Some _ => Ok (ctx_Err ctx) w
      | None, None => Blocked
      end
  | None => nil_deref
  end.

(** [ResponseWriter.WriteHeader]: the first call fixes the status, later
    calls are ignored; a code outside 100..999 panics. *)
Definition set_status (code : Z) (r : Response) : Response :=
  match status r with
  | Some _ => r
  | None => {| status := Some code; body := body r |}
  end.

Definition write_header (rw : ptr) (code : Z) (w : World) : Outcome unit :=
  if ((code <? 100) || (999 <? code))%Z then Panic "invalid WriteHeader code"
  else
    match store (responses w) rw (set_status code) with
    | Some heap => Ok tt (with_responses heap w)
    | None => nil_deref
    end.

(** [ResponseWriter.Write]: sends status 200 first if none was sent, then
    appends to the body. *)
Definition append_body (data : string) (r : Response) : Response :=
  {| status := Some (default 200%Z (status r)); body := body r +:+ data |}.

Definition write_body (rw : ptr) (data : string) (w : World) : Outcome unit :=
  match store (responses w) rw (append_body data) with
  | Some heap => Ok tt (with_responses heap w)
  | None => nil_deref
  end.

(** *** The meaning of every instruction *)

Definition handle {X : Type} (e : Event X) (w : World) : Outcome X :=
  match e in Event X return Outcome X with
  | MutexLock m => mutex_lock m w
  | MutexUnlock m => mutex_unlock m w
  | NewServerObj p s =>
      let '(heap, l) :=
        alloc (servers w)
          {| startedL := false; started := false; port := p; srv := s |} in
      Ok l (with_servers heap w)
  | LoadStarted s => load (servers w) s started w
  | StoreStarted s b => store_server s (set_started b) w
  | LoadSrv s => load (servers w) s srv w
  | NewHCObj lv s =>
      let '(heap, l) :=
        alloc (hcs w)
          {| hc_live := lv; hc_ready := false; hc_started := false;
             hc_srv := s |} in
      Ok l (with_hcs heap w)
  | LoadHCStarted hc => load (hcs w) hc hc_started w
  | StoreHCStarted hc b => store_hc hc (set_hc_started b) w
  | LoadReady hc => load (hcs w) hc hc_ready w
  | StoreReady hc b => store_hc hc (set_hc_ready b) w
  | LoadLive hc => load (hcs w) hc hc_live w
  | StoreLive hc b => store_hc hc (set_hc_live b) w
  | LoadHCSrv hc => load (hcs w) hc hc_srv w
  | LoadMaxConnections c => load (clients w) c MaxConnections w
  | AtomicLoadConnectionsCounter c => load (clients w) c ConnectionsCounter w
  | Errorf format args => Ok tt (with_logged (logged w ++ [(format, args)]) w)
  | NewServeMux =>
      let '(heap, l) := alloc (muxes w) ([] : ServeMux) in
      Ok l (with_muxes heap w)
  | NewHttpServer addr handler =>
      let '(heap, l) :=
        alloc (httpServers w)
          {| Addr := addr; Handler := handler; listeners := [];
             inShutdown := false; acceptErr := None; closeErr := None;
             drain := Some 0 |} in
      Ok l (with_httpServers heap w)
  | MuxHandleFunc mux pattern h => mux_HandleFunc mux pattern h w
  | HttpHandleFunc pattern h => http_HandleFunc pattern h w
  | LoadAddr s => load (httpServers w) s Addr w
  | LoadInShutdown s => load (httpServers w) s inShutdown w
  | NetListen _ addr => net_Listen addr w
  | TrackListener s ln => track_listener s ln w
  | AcceptLoop s _ => accept_loop s w
  | ListenerClose ln => listener_close ln w
  | BeginShutdown s => begin_shutdown s w
  | AwaitIdle s ctx => await_idle s ctx w
  | WriteHeader rw code => write_header rw code w
  | Write rw data => write_body rw data w
  | Go g => Ok tt (with_goroutines (goroutines w ++ [g]) w)
  end.

(** ** Programs *)

Inductive Prog (A : Type) : Type :=
| Ret (a : A)
| Vis {X : Type} (e : Event X) (k : X -> Prog A).

Arguments Ret {A} a.
Arguments Vis {A X} e k.

Fixpoint bind {A B : Type} (p : Prog A) (f : A -> Prog B) : Prog B :=
  match p with
  | Ret a => f a
  | Vis e k => Vis e (fun x => bind (k x) f)
  end.

Definition call {X : Type} (e : Event X) : Prog X := Vis e Ret.

Notation "x <- p ;; q" := (bind p (fun x => q))
  (at level 100, p at next level, right associativity).
Notation "p ;; q" := (bind p (fun _ => q))
  (at level 100, right associativity).

(** Running a program alone, from a world to its outcome. *)
Fixpoint run {A : Type} (p : Prog A) (w : World) : Outcome A :=
  match p with
  | Ret a => Ok a w
  | Vis e k =>
      match handle e w with
      | Ok x w' => run (k x) w'
      | Blocked => Blocked
      | Panic msg => Panic msg
      end
  end.

(** ** Library code the package calls, as programs *)

(** [http.Server.Serve]. Its deferred close of the listener is written only
    on the path where [Shutdown] has not closed it already. *)
Definition http_Serve (srv : ptr) (ln : option Listener) : Prog (option error) :=
  tracked <- call (TrackListener srv ln) ;;
  if negb tracked then
    call (ListenerClose ln) ;;
    Ret (Some ErrServerClosed)
  else
    call (AcceptLoop srv ln).

(** [http.Server.Shutdown]: the error of the context when it ended the
    wait, the error of closing the listeners otherwise. *)
Definition http_Shutdown (srv : ptr) (ctx : Context) : Prog (option error) :=
  lnerr <- call (BeginShutdown srv) ;;
  ctxerr <- call (AwaitIdle srv ctx) ;;
  Ret (if not_nil ctxerr then ctxerr else lnerr).

(** [http.Server.ListenAndServe]. *)
Definition http_ListenAndServe (srv : ptr) : Prog (option error) :=
  down <- call (LoadInShutdown srv) ;;
  if down then Ret (Some ErrServerClosed)
  else
    addr <- call (LoadAddr srv) ;;
    r <- call (NetListen "tcp" (if String.eqb addr "" then ":http" else addr)) ;;
    match snd r with
    | Some e => Ret (Some e)
    | None => http_Serve srv (fst r)
    end.

(** Modelled from the spec: [proxy.Client.AvailableConn] is called by
    [isReady] but its source is not part of the package. The spec gives the
    one condition under which the collaborator is at its limit,
    [max > 0 AND current >= max], and calls the read non-blocking and
    thread-safe; the method reads both fields and answers whether that
    condition fails. *)
Definition AvailableConn (c : ptr) : Prog bool :=
  max <- call (LoadMaxConnections c) ;;
  current <- call (AtomicLoadConnectionsCounter c) ;;
  Ret (negb ((0 <? max)%N && (max <=? current)%N)).

(** ** Package healthcheck, the [Server] version *)

Definition livenessPath : string := "/liveness".
Definition readinessPath : string := "/readiness".

(** [func isLive() bool] *)
Definition isLive : Prog bool := Ret true.

(** [func isReady(c *proxy.Client, s *Server) bool] *)
Definition isReady (c s : ptr) : Prog bool :=
  call (MutexLock (ServerStartedL s)) ;;
  started <- call (LoadStarted s) ;;
  call (MutexUnlock (ServerStartedL s)) ;;
  if negb started then
    call (Errorf "Readiness failed because proxy has not finished starting up." []) ;;
    Ret false
  else
    available <- AvailableConn c ;;
    if negb available then
      max <- call (LoadMaxConnections c) ;;
      call (Errorf "Readiness failed because proxy has reached the maximum connections limit (%d)." [ArgUint max]) ;;
      Ret false
    else
      Ret true.

(** [func (s *Server) NotifyStarted()] *)
Definition NotifyStarted (s : ptr) : Prog unit :=
  call (MutexLock (ServerStartedL s)) ;;
  call (StoreStarted s true) ;;
  call (MutexUnlock (ServerStartedL s)).

(** [func (s *Server) Close(ctx context.Context) error] *)
Definition Close (s : ptr) (ctx : Context) : Prog (option error) :=
  srv <- call (LoadSrv s) ;;
  err <- http_Shutdown srv ctx ;;
  Ret err.

(** The closure registered for [readinessPath] by [NewServer]. *)
Definition readinessHandler_body (c hcServer w : ptr) : Prog unit :=
  ready <- isReady c hcServer ;;
  if negb ready then
    call (WriteHeader w 500) ;;
    call (Write w "error")
  else
    call (WriteHeader w 200) ;;
    call (Write w "ok").

(** The closure registered for [livenessPath] by [NewServer]. *)
Definition livenessHandler_body (w : ptr) : Prog unit :=
  live <- isLive ;;
  if negb live then
    call (WriteHeader w 500) ;;
    call (Write w "error")
  else
    call (WriteHeader w 200) ;;
    call (Write w "ok").

(** The closure [NewServer] starts with [go]. *)
Definition serveTask_body (srv : ptr) (ln : option Listener) : Prog unit :=
  err <- http_Serve srv ln ;;
  if not_nil err && negb (errors_Is err ErrServerClosed) then
    call (Errorf "Failed to serve: %v" [ArgError err])
  else
    Ret tt.

(** [func NewServer(c *proxy.Client, port string)], returning a [*Server]
    and an [error]. *)
Definition NewServer (c : ptr) (port : string) : Prog (ptr * option error) :=
  mux <- call NewServeMux ;;
  srv <- call (NewHttpServer (":" +:+ port) mux) ;;
  hcServer <- call (NewServerObj port srv) ;;
  call (MuxHandleFunc mux readinessPath (readinessHandler c hcServer)) ;;
  call (MuxHandleFunc mux livenessPath livenessHandler) ;;
  addr <- call (LoadAddr srv) ;;
  r <- call (NetListen "tcp" addr) ;;
  let '(ln, err) := r in
  if not_nil err then
    Ret (None, err)
  else
    call (Go (serveTask srv ln)) ;;
    Ret (hcServer, None).

(** ** Package healthcheck, the [HC] version *)

Definition portNum : string := ":8080".

(** The line feed that ends the bodies this version writes. *)
Definition LF : string := String (Ascii.ascii_of_nat 10) EmptyString.

(** [func livenessTest() bool] *)
Definition livenessTest : Prog bool := Ret true.

(** [func readinessTest(proxyClient *proxy.Client, hc *HC) bool] *)
Definition readinessTest (proxyClient hc : ptr) : Prog bool :=
  call (MutexLock startupL) ;;
  started <- call (LoadHCStarted hc) ;;
  if negb started then
    call (MutexUnlock startupL) ;;
    call (Errorf "Readiness failed because proxy has not finished starting up." []) ;;
    Ret false
  else
    call (MutexUnlock startupL) ;;
    max <- call (LoadMaxConnections proxyClient) ;;
    atLimit <-
      (if (0 <? max)%N then
         current <- call (AtomicLoadConnectionsCounter proxyClient) ;;
         max' <- call (LoadMaxConnections proxyClient) ;;
         Ret (max' <=? current)%N
       else Ret false) ;;
    if atLimit then
      max'' <- call (LoadMaxConnections proxyClient) ;;
      call (Errorf "Readiness failed because proxy has reached the maximum connections limit (%d)." [ArgUint max'']) ;;
      Ret false
    else
      Ret true.

(** [func (hc *HC) NotifyReadyForConnections()] *)
Definition NotifyReadyForConnections (hc : ptr) : Prog unit :=
  if not_nil hc then
    call (MutexLock startupL) ;;
    call (StoreHCStarted hc true) ;;
    call (MutexUnlock startupL)
  else
    Ret tt.

(** [func (hc *HC) CloseHealthCheck()] *)
Definition CloseHealthCheck (hc : ptr) : Prog unit :=
  if not_nil hc then
    srv <- call (LoadHCSrv hc) ;;
    err <- http_Shutdown srv Background ;;
    if not_nil err then
      call (Errorf "Failed to shut down health check: " [ArgError err])
    else
      Ret tt
  else
    Ret tt.

(** The closure registered for [readinessPath] by [NewHealthCheck]. *)
Definition hcReadinessHandler_body (proxyClient hc w : ptr) : Prog unit :=
  call (MutexLock readinessL) ;;
  r <- readinessTest proxyClient hc ;;
  call (StoreReady hc r) ;;
  ready <- call (LoadReady hc) ;;
  if negb ready then
    call (MutexUnlock readinessL) ;;
    call (WriteHeader w 500) ;;
    call (Write w ("error" +:+ LF))
  else
    call (MutexUnlock readinessL) ;;
    call (WriteHeader w 200) ;;
    call (Write w ("ok" +:+ LF)).

(** The closure registered for [livenessPath] by [NewHealthCheck]. *)
Definition hcLivenessHandler_body (hc w : ptr) : Prog unit :=
  call (MutexLock livenessL) ;;
  l <- livenessTest ;;
  call (StoreLive hc l) ;;
  live <- call (LoadLive hc) ;;
  if negb live then
    call (MutexUnlock livenessL) ;;
    call (WriteHeader w 500) ;;
    call (Write w ("error" +:+ LF))
  else
    call (MutexUnlock livenessL) ;;
    call (WriteHeader w 200) ;;
    call (Write w ("ok" +:+ LF)).

(** The closure [NewHealthCheck] starts with [go]. *)
Definition listenAndServeTask_body (srv : ptr) : Prog unit :=
  err <- http_ListenAndServe srv ;;
  if not_nil err && negb (err_eqb err (Some ErrServerClosed)) then
    call (Errorf "Failed to start endpoint(s): %v" [ArgError err])
  else
    Ret tt.

(** [func NewHealthCheck(proxyClient *proxy.Client) *HC] *)
Definition NewHealthCheck (proxyClient : ptr) : Prog ptr :=
  srv <- call (NewHttpServer portNum None) ;;
  hc <- call (NewHCObj true srv) ;;
  call (HttpHandleFunc readinessPath (hcReadinessHandler proxyClient hc)) ;;
  call (HttpHandleFunc livenessPath (hcLivenessHandler hc)) ;;
  call (Go (listenAndServeTask srv)) ;;
  Ret hc.

(** ** Closures by name *)

Definition handler_body (h : HandlerFunc) (w : ptr) : Prog unit :=
  match h with
  | readinessHandler c hcServer => readinessHandler_body c hcServer w
  | livenessHandler => livenessHandler_body w
  | hcReadinessHandler proxyClient hc => hcReadinessHandler_body proxyClient hc w
  | hcLivenessHandler hc => hcLivenessHandler_body hc w
  end.

Definition goroutine_body (g : Goroutine) : Prog unit :=
  match g with
  | serveTask srv ln => serveTask_body srv ln
  | listenAndServeTask srv => listenAndServeTask_body srv
  end.

(** The value a run returns, when it returns. *)
Definition returned {A : Type} (o : Outcome A) : option A :=
  match o with
  | Ok a _ => Some a
  | _ => None
  end.

(** The world a run ends in, when it returns. *)
Definition final {A : Type} (o : Outcome A) : option World :=
  match o with
  | Ok _ w => Some w
  | _ => None
  end.

(** ** The readiness rule, in the words of the specification

    Not ready when startup has not finished; not ready when a limit is set
    ([max > 0]) and reached ([current >= max]); ready otherwise. *)
Definition readiness_spec (started : bool) (current max : N) : bool :=
  if negb started then false
  else if (0 <? max)%N && (max <=? current)%N then false
  else true.

(** ** Reading the startup flags *)

Definition started_at (w : World) (s : ptr) : option bool :=
  started <$> deref (servers w) s.

Definition hc_started_at (w : World) (hc : ptr) : option bool :=
  hc_started <$> deref (hcs w) hc.

(** A startup flag that is set in [w] is set in [w']. *)
Definition started_grows (w w' : World) : Prop :=
  (forall s, started_at w s = Some true -> started_at w' s = Some true) /\
  (forall hc, hc_started_at w hc = Some true -> hc_started_at w' hc = Some true).

(** Every object that exists in [w] exists in [w'] with the same flag. *)
Definition started_kept (w w' : World) : Prop :=
  (forall s b, started_at w s = Some b -> started_at w' s = Some b) /\
  (forall hc b, hc_started_at w hc = Some b -> hc_started_at w' hc = Some b).

(** The startup flags and the collaborator are the same in [w] and [w']. *)
Definition same_startup_and_collaborator (w w' : World) : Prop :=
  clients w' = clients w /\
  started <$> servers w' = started <$> servers w /\
  hc_started <$> hcs w' = hc_started <$> hcs w.

(** The field [f] of every object of the heap [h] is the same in [h']. *)
Definition heap_kept {T : Type} (f : T -> bool) (h h' : list T) : Prop :=
  forall l b, f <$> h !! l = Some b -> f <$> h' !! l = Some b.

(** ** Instructions by what they may touch *)

Definition writes_started {X : Type} (e : Event X) : bool :=
  match e with
  | StoreStarted _ _ | StoreHCStarted _ _ => true
  | _ => false
  end.

Definition resets_started {X : Type} (e : Event X) : bool :=
  match e with
  | StoreStarted _ b | StoreHCStarted _ b => negb b
  | _ => false
  end.

Definition query_event {X : Type} (e : Event X) : bool :=
  match e with
  | MutexLock _ | MutexUnlock _ | LoadStarted _ | LoadHCStarted _
  | LoadMaxConnections _ | AtomicLoadConnectionsCounter _ | Errorf _ _ => true
  | _ => false
  end.

(** The instruction makes some [hc.live] false. *)
Definition clears_live {X : Type} (e : Event X) : bool :=
  match e with
  | StoreLive _ b => negb b
  | NewHCObj lv _ => negb lv
  | _ => false
  end.

(** Every instruction a program can ever issue satisfies [P]. *)
Fixpoint all_events {A : Type} (P : forall X, Event X -> bool) (p : Prog A)
  : Prop :=
  match p with
  | Ret _ => True
  | Vis e k => P _ e = true /\ forall x, all_events P (k x)
  end.

Definition never_writes_started {A : Type} (p : Prog A) : Prop :=
  all_events (fun X e => negb (writes_started e)) p.

Definition never_resets_started {A : Type} (p : Prog A) : Prop :=
  all_events (fun X e => negb (resets_started e)) p.

Definition only_queries {A : Type} (p : Prog A) : Prop :=
  all_events (fun X e => query_event e) p.

Definition never_clears_live {A : Type} (p : Prog A) : Prop :=
  all_events (fun X e => negb (clears_live e)) p.

(** [hc.live] is true in every [HC] object. *)
Definition all_live (w : World) : Prop :=
  Forall (fun h => hc_live h = true) (hcs w).

(** ** The operations of the package *)

Inductive Op :=
| op_NewServer (c : ptr) (port : string)
| op_Close (s : ptr) (ctx : Context)
| op_NotifyStarted (s : ptr)
| op_isLive
| op_isReady (c s : ptr)
| op_NewHealthCheck (proxyClient : ptr)
| op_CloseHealthCheck (hc : ptr)
| op_NotifyReadyForConnections (hc : ptr)
| op_livenessTest
| op_readinessTest (proxyClient hc : ptr)
| op_handler (h : HandlerFunc) (w : ptr)
| op_goroutine (g : Goroutine).

(** The operation as a goroutine of its own, its result dropped. *)
Definition op_prog (o : Op) : Prog unit :=
  match o with
  | op_NewServer c port => NewServer c port ;; Ret tt
  | op_Close s ctx => Close s ctx ;; Ret tt
  | op_NotifyStarted s => NotifyStarted s
  | op_isLive => isLive ;; Ret tt
  | op_isReady c s => isReady c s ;; Ret tt
  | op_NewHealthCheck proxyClient => NewHealthCheck proxyClient ;; Ret tt
  | op_CloseHealthCheck hc => CloseHealthCheck hc
  | op_NotifyReadyForConnections hc => NotifyReadyForConnections hc
  | op_livenessTest => livenessTest ;; Ret tt
  | op_readinessTest proxyClient hc => readinessTest proxyClient hc ;; Ret tt
  | op_handler h w => handler_body h w
  | op_goroutine g => goroutine_body g
  end.

Definition is_notify (o : Op) : bool :=
  match o with
  | op_NotifyStarted _ | op_NotifyReadyForConnections _ => true
  | _ => false
  end.

(** ** Goroutines running together *)

(** What a step lets an observer see: the value a load of a startup flag
    or of [hc.live] has read. *)
Inductive label :=
| ObsStarted (s : ptr) (b : bool)
| ObsHCStarted (hc : ptr) (b : bool)
| ObsLive (hc : ptr) (b : bool)
| Silent.

Definition label_of {X : Type} (e : Event X) : X -> label :=
  match e in Event X return X -> label with
  | LoadStarted s => fun b => ObsStarted s b
  | LoadHCStarted hc => fun b => ObsHCStarted hc b
  | LoadLive hc => fun b => ObsLive hc b
  | _ => fun _ => Silent
  end.

(** One instruction of one goroutine; [None] when it has returned, is
    blocked, or panics. *)
Definition tstep {A : Type} (p : Prog A) (w : World)
  : option (label * Prog A * World) :=
  match p with
  | Ret _ => None
  | Vis e k =>
      match handle e w with
      | Ok x w' => Some (label_of e x, k x, w')
      | _ => None
      end
  end.

(** The states a program passes through when run alone, whether or not it
    goes on to return. *)
Inductive tsteps {A : Type} : Prog A -> World -> Prog A -> World -> Prop :=
| tsteps_refl p w : tsteps p w p w
| tsteps_step p w l p' w' p'' w'' :
    tstep p w = Some (l, p', w') ->
    tsteps p' w' p'' w'' ->
    tsteps p w p'' w''.

Abbreviation Pool := (list (Prog unit)).

(** The mux a server dispatches on: its [Handler], or [DefaultServeMux]
    when that is nil. *)
Definition routes (w : World) (s : http_Server) : option ServeMux :=
  match Handler s with
  | Some m => muxes w !! m
  | None => Some (DefaultServeMux w)
  end.

Definition set_traffic (ae ce : option error) (d : option nat)
    (s : http_Server) : http_Server :=
  {| Addr := Addr s; Handler := Handler s; listeners := listeners s;
     inShutdown := inShutdown s; acceptErr := ae; closeErr := ce; drain := d |}.

Definition set_counter (n : N) (cl : Client) : Client :=
  {| MaxConnections := MaxConnections cl; ConnectionsCounter := n |}.

(** A step of the process: a goroutine executes one instruction; a closure
    passed to [go] starts running; a serving server dispatches a request to
    a registered handler, on a fresh response writer; the owning process
    calls an operation of the package; the collaborator changes its
    connection count or creates a client; the traffic of a server changes.
    A goroutine that is blocked or has panicked takes no step; the others
    go on, so a panic, which ends a Go process, only cuts executions short. *)
Inductive pstep : World * Pool -> label -> World * Pool -> Prop :=
| step_thread w pool i p l p' w' :
    pool !! i = Some p ->
    tstep p w = Some (l, p', w') ->
    pstep (w, pool) l (w', <[i := p']> pool)
| step_go w pool g gs :
    goroutines w = g :: gs ->
    pstep (w, pool) Silent (with_goroutines gs w, pool ++ [goroutine_body g])
| step_request w pool l s mux path h :
    httpServers w !! l = Some s ->
    listeners s <> [] ->
    inShutdown s = false ->
    routes w s = Some mux ->
    In (path, h) mux ->
    pstep (w, pool) Silent
      (with_responses (responses w ++ [fresh_response]) w,
       pool ++ [handler_body h (Some (length (responses w)))])
| step_call w pool o :
    pstep (w, pool) Silent (w, pool ++ [op_prog o])
| step_conn w pool c cl n :
    clients w !! c = Some cl ->
    pstep (w, pool) Silent
      (with_clients (<[c := set_counter n cl]> (clients w)) w, pool)
| step_client w pool cl :
    pstep (w, pool) Silent (with_clients (clients w ++ [cl]) w, pool)
| step_traffic w pool l s ae ce d :
    httpServers w !! l = Some s ->
    pstep (w, pool) Silent
      (with_httpServers (<[l := set_traffic ae ce d s]> (httpServers w)) w, pool).

(** Executions, with what they let observe. *)
Inductive exec : World * Pool -> list label -> World * Pool -> Prop :=
| exec_nil cfg : exec cfg [] cfg
| exec_cons cfg l cfg' tr cfg'' :
    pstep cfg l cfg' -> exec cfg' tr cfg'' -> exec cfg (l :: tr) cfg''.

(** No goroutine of the pool can ever reset a startup flag. *)
Definition pool_never_resets (pool : Pool) : Prop :=
  Forall never_resets_started pool.

Definition pool_never_clears_live (pool : Pool) : Prop :=
  Forall never_clears_live pool.

(** What is left of [NotifyStarted s] after [n] of its instructions. *)
Definition NotifyStarted_after (s : ptr) (n : nat) : Prog unit :=
  match n with
  | 0 => NotifyStarted s
  | 1 => call (StoreStarted s true) ;; call (MutexUnlock (ServerStartedL s))
  | 2 => call (MutexUnlock (ServerStartedL s))
  | _ => Ret tt
  end.

(** What is left of [NotifyReadyForConnections hc], [hc] not nil, after [n]
    of its instructions. *)
Definition NotifyReadyForConnections_after (hc : ptr) (n : nat) : Prog unit :=
  match n with
  | 0 => NotifyReadyForConnections hc
  | 1 => call (StoreHCStarted hc true) ;; call (MutexUnlock startupL)
  | 2 => call (MutexUnlock startupL)
  | _ => Ret tt
  end.

(** ** What the readiness predicates log *)

Definition not_started_msg : LogEntry :=
  ("Readiness failed because proxy has not finished starting up.", []).

Definition at_limit_msg (max : N) : LogEntry :=
  ("Readiness failed because proxy has reached the maximum connections limit (%d).",
   [ArgUint max]).

Definition readiness_log (started : bool) (current max : N) : list LogEntry :=
  if negb started then [not_started_msg]
  else if (0 <? max)%N && (max <=? current)%N then [at_limit_msg max]
  else [].

(** ** Concrete worlds *)

(** One client, one [Server] and one [HC], each at address 0, with the given
    startup flag, connection count and limit; no lock is held. *)
Definition probe_world (st : bool) (current max : N) : World :=
  with_clients [{| MaxConnections := max; ConnectionsCounter := current |}]
    (with_servers
       [{| startedL := false; started := st; port := "8080"; srv := None |}]
       (with_hcs
          [{| hc_live := true; hc_ready := false; hc_started := st;
              hc_srv := None |}]
          empty_world)).

(** [probe_world] with one request in flight, its response writer at
    address 0. *)
Definition request_world (st : bool) (current max : N) : World :=
  with_responses [fresh_response] (probe_world st current max).

(** ** What a probe answers *)

(** Status 200 with [okBody], or status 500 with [errBody]. *)
Definition answer (ok : bool) (okBody errBody : string) : Response :=
  if ok then {| status := Some 200%Z; body := okBody |}
  else {| status := Some 500%Z; body := errBody |}.

(** The response at [rw] when the run has returned. *)
Definition response_after {A : Type} (o : Outcome A) (rw : nat)
  : option Response :=
  match o with
  | Ok _ w => responses w !! rw
  | _ => None
  end.


(** ** Constructors and the bind *)

(** Wherever a bind to [addr] must fail, the constructor returns no handle
    and that error. *)
Definition binds_before_returning (ctor : Prog (ptr * option error))
    (addr : string) : Prop :=
  forall w e,
    bind_error (netBusy w) addr = Some e ->
    returned (run ctor w) = Some (None, Some e).

(** What a caller has of [NewHealthCheck], in the shape of [NewServer]'s
    results: the handle, and no error, as the function has no error result. *)
Definition NewHealthCheck_results (proxyClient : ptr)
  : Prog (ptr * option error) :=
  hc <- NewHealthCheck proxyClient ;;
  Ret (hc, None).

Definition start_failed_msg (e : error) : LogEntry :=
  ("Failed to start endpoint(s): %v", [ArgError (Some e)]).

(** A process in which nothing is allocated or registered yet and the port
    of the [HC] version is taken by another process. *)
Definition busy_world : World :=
  with_netBusy [(portNum, EADDRINUSE)] empty_world.

(** ** Shutting down *)





(** A [Server] and an [HC], each at address 0, that share the [http.Server]
    at address 0, whose listeners will close with [ce] and whose connections
    are idle at tick [d]. *)
Definition closing_world (ce : option error) (d : option nat) : World :=
  with_httpServers
    [{| Addr := portNum; Handler := None;
        listeners := [TCPListener portNum]; inShutdown := false;
        acceptErr := None; closeErr := ce; drain := d |}]
    (with_servers
       [{| startedL := false; started := true; port := "8080"; srv := Some 0 |}]
       (with_hcs
          [{| hc_live := true; hc_ready := false; hc_started := true;
              hc_srv := Some 0 |}]
          busy_world)).

(** ** A short execution *)

(** One goroutine about to run [isReady] where startup has finished. *)
Definition polling_start : World * Pool :=
  (probe_world true 0 0, [op_prog (op_isReady (Some 0) (Some 0))]).

Definition locked_probe_world : World :=
  with_servers
    [{| startedL := true; started := true; port := "8080"; srv := None |}]
    (probe_world true 0 0).

(** The same goroutine after it has taken the lock and read the flag. *)
Definition polling_read : World * Pool :=
  (locked_probe_world,
   [call (MutexUnlock (ServerStartedL (Some 0))) ;;
    available <- AvailableConn (Some 0) ;;
    (if negb available then
       max <- call (LoadMaxConnections (Some 0)) ;;
       call (Errorf "Readiness failed because proxy has reached the maximum connections limit (%d)." [ArgUint max]) ;;
       Ret false
     else Ret true) ;;
    Ret tt]).

(** ** A scenario: probe, notify, probe again *)

(** One client without a limit and three requests in flight. *)
Definition scenario_world : World :=
  with_clients [{| MaxConnections := 0; ConnectionsCounter := 0 |}]
    (with_responses [fresh_response; fresh_response; fresh_response]
       empty_world).

(** Construct a [Server]; probe liveness, then readiness; notify; probe
    readiness again. *)
Definition Server_scenario : Prog unit :=
  r <- NewServer (Some 0) "8080" ;;
  livenessHandler_body (Some 0) ;;
  readinessHandler_body (Some 0) (fst r) (Some 1) ;;
  NotifyStarted (fst r) ;;
  readinessHandler_body (Some 0) (fst r) (Some 2).

(** The same with an [HC]. *)
Definition HC_scenario : Prog unit :=
  hc <- NewHealthCheck (Some 0) ;;
  hcLivenessHandler_body hc (Some 0) ;;
  hcReadinessHandler_body (Some 0) hc (Some 1) ;;
  NotifyReadyForConnections hc ;;
  hcReadinessHandler_body (Some 0) hc (Some 2).

(** ** Locks taken and given back *)

#[global] Instance Mutex_eq_dec : EqDecision Mutex.
Proof. solve_decision. Defined.

(** Whether the mutex [m] is held in [w]; [None] for the mutex of a
    [Server] that does not exist. *)
Definition lock_held (w : World) (m : Mutex) : option bool :=
  match m with
  | ServerStartedL s => startedL <$> deref (servers w) s
  | readinessL => Some (readinessL_held w)
  | livenessL => Some (livenessL_held w)
  | startupL => Some (startupL_held w)
  end.

Inductive LockAction :=
| Acquire (m : Mutex)
| Release (m : Mutex)
| NoLock.

Definition lock_action {X : Type} (e : Event X) : LockAction :=
  match e with
  | MutexLock m => Acquire m
  | MutexUnlock m => Release m
  | _ => NoLock
  end.

(** On every path of [p], started while holding the mutexes [held], most
    recent first, each unlock gives back the mutex taken last and the
    program returns holding none. *)
Fixpoint balanced {A : Type} (held : list Mutex) (p : Prog A) : Prop :=
  match p with
  | Ret _ => held = []
  | Vis e k =>
      match lock_action e with
      | Acquire m => forall x, balanced (m :: held) (k x)
      | Release m =>
          match held with
          | m' :: rest => m' = m /\ forall x, balanced rest (k x)
          | [] => False
          end
      | NoLock => forall x, balanced held (k x)
      end
  end.

(** ** The worlds the constructors leave *)

(** The [Server] that [NewServer] allocates in [w]. *)
Definition fresh_Server (w : World) (port : string) : Server :=
  {| startedL := false; started := false; port := port;
     srv := Some (length (httpServers w)) |}.

(** The [http.Server] that [NewServer] allocates in [w]. *)
Definition fresh_http_Server (w : World) (port : string) : http_Server :=
  {| Addr := ":" +:+ port; Handler := Some (length (muxes w)); listeners := [];
     inShutdown := false; acceptErr := None; closeErr := None; drain := Some 0 |}.

(** The routes [NewServer] registers in [w], on its own mux. *)
Definition fresh_routes (w : World) (c : ptr) : ServeMux :=
  [(readinessPath, readinessHandler c (Some (length (servers w))));
   (livenessPath, livenessHandler)].

(** [w] with the three objects of [NewServer] allocated. *)
Definition NewServer_allocated (w : World) (c : ptr) (port : string) : World :=
  with_muxes (muxes w ++ [fresh_routes w c])
    (with_servers (servers w ++ [fresh_Server w port])
       (with_httpServers (httpServers w ++ [fresh_http_Server w port]) w)).

(** [w] after a [NewServer] whose bind has succeeded. *)
Definition NewServer_bound (w : World) (c : ptr) (port : string) : World :=
  with_goroutines
    (goroutines w ++
     [serveTask (Some (length (httpServers w)))
        (Some (TCPListener (":" +:+ port)))])
    (with_netBusy ((":" +:+ port, EADDRINUSE) :: netBusy w)
       (NewServer_allocated w c port)).

(** The [HC] that [NewHealthCheck] allocates in [w]. *)
Definition fresh_HC (w : World) : HC :=
  {| hc_live := true; hc_ready := false; hc_started := false;
     hc_srv := Some (length (httpServers w)) |}.

(** The routes [NewHealthCheck] registers in [w], on [DefaultServeMux]. *)
Definition fresh_default_routes (w : World) (proxyClient : ptr) : ServeMux :=
  [(readinessPath, hcReadinessHandler proxyClient (Some (length (hcs w))));
   (livenessPath, hcLivenessHandler (Some (length (hcs w))))].

(** [w] after a [NewHealthCheck] that has returned. *)
Definition NewHealthCheck_done (w : World) (proxyClient : ptr) : World :=
  with_goroutines
    (goroutines w ++ [listenAndServeTask (Some (length (httpServers w)))])
    (with_DefaultServeMux (DefaultServeMux w ++ fresh_default_routes w proxyClient)
       (with_hcs (hcs w ++ [fresh_HC w])
          (with_httpServers
             (httpServers w ++
              [{| Addr := portNum; Handler := None; listeners := [];
                  inShutdown := false; acceptErr := None; closeErr := None;
                  drain := Some 0 |}])
             w))).

Definition registration_panic : string :=
  "http: invalid pattern or multiple registrations".

(** ** Probes and goroutines, further *)

(** The instructions of the probe handlers. *)
Definition probe_event {X : Type} (e : Event X) : bool :=
  match e with
  | LoadReady _ | StoreReady _ _ | LoadLive _ | StoreLive _ _
  | WriteHeader _ _ | Write _ _ => true
  | _ => query_event e
  end.



(** The address [ListenAndServe] binds for a server. *)
Definition listen_addr (s : http_Server) : string :=
  if String.eqb (Addr s) "" then ":http" else Addr s.


(** * Properties *)

(** ** Heaps *)

Section Heaps.
Context {T : Type}.
Implicit Types (heap : list T) (l : nat) (x y : T) (f : T -> bool).

Lemma store_lookup heap l x (g : T -> T) :
  heap !! l = Some x -> store heap (Some l) g = Some (<[l := g x]> heap).
Proof. intros H. unfold store. now rewrite H. Qed.

Lemma insert_back heap l x y :
  heap !! l = Some x -> <[l := x]> (<[l := y]> heap) = heap.
Proof.
  intros H. rewrite list_insert_insert_eq. now apply list_insert_id.
Qed.

Lemma heap_kept_refl f heap : heap_kept f heap heap.
Proof. now intros l b. Qed.

Lemma heap_kept_insert f heap l x y :
  heap !! l = Some x -> f y = f x -> heap_kept f heap (<[l := y]> heap).
Proof.
  intros Hl Hf l' b. destruct (decide (l = l')) as [<- |].
  - rewrite list_lookup_insert_eq by (eapply lookup_lt_Some; eauto).
    rewrite Hl. simpl. now rewrite Hf.
  - now rewrite list_lookup_insert_ne.
Qed.

Lemma heap_kept_app f heap x : heap_kept f heap (heap ++ [x]).
Proof.
  intros l b H. destruct (heap !! l) eqn:E; [| discriminate].
  now rewrite (lookup_app_l_Some _ _ _ _ E).
Qed.

Lemma fmap_insert_same f heap l x y :
  heap !! l = Some x -> f y = f x -> f <$> <[l := y]> heap = f <$> heap.
Proof.
  intros Hl Hf. rewrite list_fmap_insert. apply list_insert_id.
  rewrite list_lookup_fmap, Hl. simpl. now rewrite Hf.
Qed.

End Heaps.

(** ** Worlds *)

Lemma with_servers_same (w : World) (x : list Server) :
  with_servers (servers w) (with_servers x w) = w.
Proof. now destruct w. Qed.

Lemma with_startupL_same (w : World) (b : bool) :
  with_startupL (startupL_held w) (with_startupL b w) = w.
Proof. now destruct w. Qed.

Lemma unlock_relock (sv : Server) :
  startedL sv = false -> set_startedL false (set_startedL true sv) = sv.
Proof. destruct sv; simpl; now intros ->. Qed.

(** Symbolic execution of [run]: unfold one layer, then use what is known
    about the heaps and the flags. *)
Ltac heap_bound :=
  first
    [ rewrite ?length_insert; eapply lookup_lt_Some; eassumption
    | rewrite ?length_insert, ?length_app; simpl; lia ].

Ltac exec_step :=
  first
    [ progress simpl
    | progress unfold store, load, deref, store_server, store_hc, store_http,
        write_header, write_body, net_Listen, listener_close, mux_HandleFunc,
        http_HandleFunc, track_listener, accept_loop, begin_shutdown,
        await_idle
    | match goal with
      | H : ?h !! ?l = _ |- context [ ?h !! ?l ] => rewrite H
      | |- context [ (?l ++ [?x]) !! length ?l ] =>
          rewrite (list_lookup_middle l [] x (length l) eq_refl)
      | H : bind_error ?b ?a = _ |- context [ bind_error ?b ?a ] => rewrite H
      | H : registered ?m ?p = _ |- context [ registered ?m ?p ] => rewrite H
      | |- context [ <[?l := ?y]> ?h !! ?l ] =>
          rewrite (list_lookup_insert_eq h l y) by heap_bound
      | H : ?x = true |- context [ if ?x then _ else _ ] => rewrite H
      | H : ?x = false |- context [ if ?x then _ else _ ] => rewrite H
      end ].

Ltac exec := repeat exec_step.

(** ** The readiness predicates, run alone *)

Lemma isReady_outcome (w : World) (c s : nat) (sv : Server) (cl : Client) :
  servers w !! s = Some sv ->
  startedL sv = false ->
  clients w !! c = Some cl ->
  run (isReady (Some c) (Some s)) w
  = Ok (readiness_spec (started sv) (ConnectionsCounter cl) (MaxConnections cl))
       (with_logged
          (logged w ++
           readiness_log (started sv) (ConnectionsCounter cl) (MaxConnections cl))
          w).
Proof.
  intros Hs Hl Hc.
  unfold isReady, AvailableConn, readiness_spec, readiness_log, mutex_lock. exec.
  rewrite (unlock_relock _ Hl), (insert_back _ _ _ _ Hs), with_servers_same.
  destruct (started sv); exec; [| reflexivity].
  destruct ((0 <? MaxConnections cl)%N && (MaxConnections cl <=? ConnectionsCounter cl)%N);
    exec; [reflexivity |].
  rewrite app_nil_r. now destruct w.
Qed.

Lemma isReady_before_start (w : World) (c : ptr) (s : nat) (sv : Server) :
  servers w !! s = Some sv ->
  startedL sv = false ->
  started sv = false ->
  run (isReady c (Some s)) w
  = Ok false (with_logged (logged w ++ [not_started_msg]) w).
Proof.
  intros Hs Hl Hst. unfold isReady, mutex_lock. exec.
  rewrite (unlock_relock _ Hl), (insert_back _ _ _ _ Hs), with_servers_same.
  rewrite Hst. reflexivity.
Qed.

Lemma readinessTest_outcome (w : World) (c hc : nat) (h : HC) (cl : Client) :
  hcs w !! hc = Some h ->
  startupL_held w = false ->
  clients w !! c = Some cl ->
  run (readinessTest (Some c) (Some hc)) w
  = Ok (readiness_spec (hc_started h) (ConnectionsCounter cl) (MaxConnections cl))
       (with_logged
          (logged w ++
           readiness_log (hc_started h) (ConnectionsCounter cl) (MaxConnections cl))
          w).
Proof.
  intros Hh Hl Hc.
  unfold readinessTest, readiness_spec, readiness_log. exec.
  assert (Hw : with_startupL false (with_startupL true w) = w)
    by (rewrite <- Hl at 1; apply with_startupL_same).
  destruct (hc_started h); exec; rewrite Hw; [| reflexivity].
  exec. destruct (0 <? MaxConnections cl)%N; exec.
  - destruct (MaxConnections cl <=? ConnectionsCounter cl)%N; exec;
      [reflexivity |]. rewrite app_nil_r. now destruct w.
  - rewrite app_nil_r. now destruct w.
Qed.


(** ** C1: what decides readiness *)




(** The other side of the boundary, and the unlimited case, on the code. *)
Example readiness_below_limit :
  returned (run (isReady (Some 0) (Some 0)) (probe_world true 9 10)) = Some true /\
  returned (run (readinessTest (Some 0) (Some 0)) (probe_world true 9 10))
  = Some true.
Proof. split; reflexivity. Qed.

Example readiness_unlimited (current : N) :
  returned (run (isReady (Some 0) (Some 0)) (probe_world true current 0))
  = Some true /\
  returned (run (readinessTest (Some 0) (Some 0)) (probe_world true current 0))
  = Some true.
Proof. split; reflexivity. Qed.

(** The scenario of the specification, on both versions: liveness answers
    200, readiness answers 500 before the notification and 200 after it. *)
Example Server_scenario_answers :
  responses <$> final (run Server_scenario scenario_world)
  = Some [ {| status := Some 200%Z; body := "ok" |};
           {| status := Some 500%Z; body := "error" |};
           {| status := Some 200%Z; body := "ok" |} ].
Proof. reflexivity. Qed.

Example HC_scenario_answers :
  responses <$> final (run HC_scenario scenario_world)
  = Some [ {| status := Some 200%Z; body := "ok" +:+ LF |};
           {| status := Some 500%Z; body := "error" +:+ LF |};
           {| status := Some 200%Z; body := "ok" +:+ LF |} ].
Proof. reflexivity. Qed.

(** ** C4: not ready before startup has finished *)



(** ** C9: a nil [HC] receiver *)

(** C9. On a nil receiver [NotifyReadyForConnections] and [CloseHealthCheck]
    are the empty program: they issue no instruction, so nothing is
    dereferenced, and run from any world they return in that same world. *)
Theorem nil_receiver_is_noop :
  NotifyReadyForConnections None = Ret tt /\
  CloseHealthCheck None = Ret tt /\
  (forall w, run (NotifyReadyForConnections None) w = Ok tt w) /\
  (forall w, run (CloseHealthCheck None) w = Ok tt w).
Proof. repeat split. Qed.

(** ** Sequencing *)

Lemma run_bind {A B : Type} (p : Prog A) (f : A -> Prog B) (w : World) :
  run (bind p f) w
  = match run p w with
    | Ok a w' => run (f a) w'
    | Blocked => Blocked
    | Panic msg => Panic msg
    end.
Proof.
  revert w. induction p as [a | X e k IH]; intros w; simpl; [reflexivity |].
  destruct (handle e w); auto.
Qed.

(** ** The probe handlers, run alone *)

Lemma write_answer (w : World) (rw : nat) (code : Z) (data : string) :
  responses w !! rw = Some fresh_response ->
  (100 <= code <= 999)%Z ->
  run (call (WriteHeader (Some rw) code) ;; call (Write (Some rw) data)) w
  = Ok tt (with_responses
             (<[rw := {| status := Some code; body := data |}]> (responses w)) w).
Proof.
  intros Hr Hcode. simpl. unfold write_header at 1.
  replace ((code <? 100)%Z || (999 <? code)%Z) with false
    by (symmetry; apply orb_false_iff; split; [apply Z.ltb_ge | apply Z.ltb_ge]; lia).
  exec. rewrite list_insert_insert_eq. now destruct w.
Qed.


Lemma livenessHandler_outcome (w : World) (rw : nat) :
  responses w !! rw = Some fresh_response ->
  run (livenessHandler_body (Some rw)) w
  = Ok tt (with_responses
             (<[rw := {| status := Some 200%Z; body := "ok" |}]> (responses w)) w).
Proof.
  intros Hr. unfold livenessHandler_body, isLive. simpl bind.
  now apply (write_answer w rw 200 "ok").
Qed.


Lemma hcLivenessHandler_outcome (w : World) (hc rw : nat) (h : HC) :
  hcs w !! hc = Some h ->
  livenessL_held w = false ->
  responses w !! rw = Some fresh_response ->
  response_after (run (hcLivenessHandler_body (Some hc) (Some rw)) w) rw
  = Some {| status := Some 200%Z; body := "ok" +:+ LF |}.
Proof.
  intros Hh Hl Hr. unfold hcLivenessHandler_body, livenessTest. exec.
  reflexivity.
Qed.

(** Whatever the world, a liveness handler of the [HC] version that returns
    has answered 200. *)
Lemma hcLivenessHandler_returns_200
    (w w' : World) (hc : ptr) (rw : nat) :
  responses w !! rw = Some fresh_response ->
  run (hcLivenessHandler_body hc (Some rw)) w = Ok tt w' ->
  responses w' !! rw = Some {| status := Some 200%Z; body := "ok" +:+ LF |}.
Proof.
  intros Hr. unfold hcLivenessHandler_body, livenessTest.
  destruct (livenessL_held w) eqn:Hl; [exec; intros [=] |].
  destruct hc as [l |]; [| exec; intros [=]].
  destruct (hcs w !! l) as [h |] eqn:Hh; [| exec; intros [=]].
  exec. intros [= <-]. exec. reflexivity.
Qed.

(** ** C7: status and body of the probe answers *)




(** ** The constructors, run alone *)

Lemma bind_error_is_OS (busy : list (string * string)) (addr : string) (e : error) :
  bind_error busy addr = Some e -> exists msg, e = ErrOS msg.
Proof.
  induction busy as [| [a m] rest IH]; simpl; [discriminate |].
  destruct (String.eqb a addr); [| exact IH].
  intros [= <-]. now exists m.
Qed.

Lemma registered_app (mux : ServeMux) (p q : string) (h : HandlerFunc) :
  registered (mux ++ [(p, h)]) q = registered mux q || String.eqb p q.
Proof.
  unfold registered. rewrite existsb_app. simpl. now rewrite orb_false_r.
Qed.

Lemma register_free (mux : ServeMux) (p : string) (h : HandlerFunc) :
  String.eqb p "" = false ->
  registered mux p = false ->
  register mux p h = Some (mux ++ [(p, h)]).
Proof. intros Hp Hr. unfold register. now rewrite Hp, Hr. Qed.

Lemma NewServer_bind_fails (w : World) (c : ptr) (port : string) (e : error) :
  bind_error (netBusy w) (":" +:+ port) = Some e ->
  exists w',
    run (NewServer c port) w = Ok (None, Some e) w' /\
    goroutines w' = goroutines w /\
    netBusy w' = netBusy w.
Proof.
  intros Hb. unfold NewServer, readinessPath, livenessPath, register.
  simpl in Hb. exec. eexists. split; [reflexivity |]. now split.
Qed.

Lemma NewServer_bind_succeeds (w : World) (c : ptr) (port : string) :
  bind_error (netBusy w) (":" +:+ port) = None ->
  exists w',
    run (NewServer c port) w = Ok (Some (length (servers w)), None) w' /\
    started_at w' (Some (length (servers w))) = Some false /\
    bind_error (netBusy w') (":" +:+ port) = Some (ErrOS EADDRINUSE) /\
    goroutines w'
    = goroutines w ++
      [serveTask (Some (length (httpServers w)))
         (Some (TCPListener (":" +:+ port)))].
Proof.
  intros Hb. unfold NewServer, readinessPath, livenessPath, register.
  simpl in Hb. exec. eexists. split; [reflexivity |].
  unfold started_at. exec. rewrite String.eqb_refl. now repeat split.
Qed.

Lemma NewHealthCheck_outcome (w : World) (c : ptr) :
  registered (DefaultServeMux w) readinessPath = false ->
  registered (DefaultServeMux w) livenessPath = false ->
  exists w',
    run (NewHealthCheck c) w = Ok (Some (length (hcs w))) w' /\
    hc_started_at w' (Some (length (hcs w))) = Some false /\
    netBusy w' = netBusy w /\
    logged w' = logged w /\
    goroutines w'
    = goroutines w ++ [listenAndServeTask (Some (length (httpServers w)))] /\
    httpServers w' !! length (httpServers w)
    = Some {| Addr := portNum; Handler := None; listeners := [];
              inShutdown := false; acceptErr := None; closeErr := None;
              drain := Some 0 |}.
Proof.
  intros Hr Hl. unfold NewHealthCheck. exec.
  rewrite (register_free _ readinessPath _ eq_refl Hr). exec.
  rewrite (register_free _ livenessPath) by
    (try reflexivity; rewrite registered_app, Hl; reflexivity).
  exec.
  eexists. split; [reflexivity |]. unfold hc_started_at. exec. now repeat split.
Qed.

Lemma listenAndServeTask_bind_fails
    (w : World) (l : nat) (hs : http_Server) (e : error) :
  httpServers w !! l = Some hs ->
  inShutdown hs = false ->
  String.eqb (Addr hs) "" = false ->
  bind_error (netBusy w) (Addr hs) = Some e ->
  run (listenAndServeTask_body (Some l)) w
  = Ok tt (with_logged (logged w ++ [start_failed_msg e]) w).
Proof.
  intros Hs Hd Ha Hb. destruct (bind_error_is_OS _ _ _ Hb) as [msg ->].
  unfold listenAndServeTask_body, http_ListenAndServe. exec. reflexivity.
Qed.

(** ** C6: when a bind failure reaches the caller *)

(** C6, as stated, fails on [NewHealthCheck]: where the bind to its port
    must fail, it still returns a handle and no error. *)
Lemma NewHealthCheck_returns_before_binding :
  ~ binds_before_returning (NewHealthCheck_results None) portNum.
Proof.
  intros H. specialize (H busy_world (ErrOS EADDRINUSE) eq_refl).
  vm_compute in H. discriminate H.
Qed.

(** C6, amended. [NewServer] binds before it returns: where the bind must
    fail it returns that error and no handle, and starts no goroutine; where
    the bind succeeds it returns a handle and no error, the address is taken
    and the serving goroutine is queued. [NewHealthCheck], its two routes
    being free on [DefaultServeMux], returns a handle without having bound:
    the addresses in use are unchanged and nothing is logged; the goroutine
    it has queued is the one that binds, and where the bind must fail that
    goroutine logs the failure. *)
Theorem bind_failure_by_constructor (w : World) (c : ptr) (port : string) :
  binds_before_returning (NewServer c port) (":" +:+ port) /\
  (forall e,
      bind_error (netBusy w) (":" +:+ port) = Some e ->
      goroutines <$> final (run (NewServer c port) w) = Some (goroutines w)) /\
  (bind_error (netBusy w) (":" +:+ port) = None ->
   exists s w',
     run (NewServer c port) w = Ok (Some s, None) w' /\
     bind_error (netBusy w') (":" +:+ port) = Some (ErrOS EADDRINUSE) /\
     exists srv ln, goroutines w' = goroutines w ++ [serveTask srv ln]) /\
  (registered (DefaultServeMux w) readinessPath = false ->
   registered (DefaultServeMux w) livenessPath = false ->
   exists hc srv w',
     run (NewHealthCheck c) w = Ok (Some hc) w' /\
     netBusy w' = netBusy w /\
     logged w' = logged w /\
     goroutines w' = goroutines w ++ [listenAndServeTask srv] /\
     forall e,
       bind_error (netBusy w) portNum = Some e ->
       run (goroutine_body (listenAndServeTask srv)) w'
       = Ok tt (with_logged (logged w' ++ [start_failed_msg e]) w')).
Proof.
  split; [| split; [| split]].
  - intros w0 e Hb.
    destruct (NewServer_bind_fails w0 c port e Hb) as (w' & -> & _). reflexivity.
  - intros e Hb.
    destruct (NewServer_bind_fails w c port e Hb) as (w' & -> & Hg & _).
    simpl. now rewrite Hg.
  - intros Hb.
    destruct (NewServer_bind_succeeds w c port Hb) as (w' & Hrun & _ & Hbusy & Hg).
    eauto 8.
  - intros Hr Hl.
    destruct (NewHealthCheck_outcome w c Hr Hl)
      as (w' & Hrun & _ & Hn & Hlog & Hg & Hsrv).
    exists (length (hcs w)), (Some (length (httpServers w))), w'.
    repeat (split; [assumption |]).
    intros e Hb. simpl goroutine_body.
    apply (listenAndServeTask_bind_fails w' _ _ e Hsrv); try reflexivity.
    simpl. now rewrite Hn.
Qed.

Lemma bind_failure_by_constructor_witness :
  bind_error (netBusy busy_world) (":" +:+ "8080") = Some (ErrOS EADDRINUSE) /\
  returned (run (NewServer None "8080") busy_world)
  = Some (None, Some (ErrOS EADDRINUSE)) /\
  goroutines <$> final (run (NewServer None "8080") busy_world) = Some [].
Proof.
  destruct (bind_failure_by_constructor busy_world None "8080") as (H1 & H2 & _).
  split; [reflexivity |]. split.
  - exact (H1 busy_world _ eq_refl).
  - exact (H2 _ eq_refl).
Defined.

(** ** Shutdown, run alone *)





(** ** C8: what a shutdown reports to its caller *)




(** ** What single instructions preserve *)

Lemma started_kept_heaps (w w' : World) :
  heap_kept started (servers w) (servers w') ->
  heap_kept hc_started (hcs w) (hcs w') ->
  started_kept w w'.
Proof.
  intros Hs Hh. split.
  - intros [l |] b; unfold started_at; simpl; [apply Hs | discriminate].
  - intros [l |] b; unfold hc_started_at; simpl; [apply Hh | discriminate].
Qed.

Lemma started_kept_grows (w w' : World) : started_kept w w' -> started_grows w w'.
Proof. intros [Hs Hh]. split; intros; [apply Hs | apply Hh]; assumption. Qed.

Lemma started_grows_refl (w : World) : started_grows w w.
Proof. now split. Qed.

Lemma started_grows_trans (a b c : World) :
  started_grows a b -> started_grows b c -> started_grows a c.
Proof. intros [H1 H2] [H3 H4]. split; intros; [apply H3, H1 | apply H4, H2]; assumption. Qed.

Ltac unfold_handle H :=
  simpl in H;
  unfold mutex_lock, mutex_unlock, load, store_server, store_hc,
    net_Listen, listener_close, mux_HandleFunc, http_HandleFunc,
    track_listener, accept_loop, begin_shutdown, await_idle, store_http,
    store, deref,
    write_header, write_body, store, unlock_of_unlocked, nil_deref in H;
  repeat case_match; simplify_eq.

Ltac kept :=
  apply started_kept_heaps; simpl;
  first [ apply heap_kept_refl
        | apply heap_kept_app
        | eapply heap_kept_insert; [eassumption | reflexivity] ].

(** An instruction other than a store to a startup flag leaves the flag of
    every existing object as it is. *)
Lemma quiet_event_keeps_started {X : Type} (e : Event X) (w w' : World) (x : X) :
  writes_started e = false -> handle e w = Ok x w' -> started_kept w w'.
Proof.
  intros Hq He. destruct e; simpl in Hq; try discriminate;
    unfold_handle He; kept.
Qed.

(** An instruction other than a store of false to a startup flag leaves
    every set flag set. *)
Lemma event_grows_started {X : Type} (e : Event X) (w w' : World) (x : X) :
  resets_started e = false -> handle e w = Ok x w' -> started_grows w w'.
Proof.
  intros Hq He. destruct (writes_started e) eqn:Hw.
  - destruct e; simpl in Hw; try discriminate; simpl in Hq;
      apply negb_false_iff in Hq; subst b; unfold_handle He.
    + split; [| now intros hc].
      intros [l |]; unfold started_at; simpl; [| discriminate].
      destruct (decide (n = l)) as [<- |].
      * rewrite list_lookup_insert_eq by (eapply lookup_lt_Some; eauto).
        reflexivity.
      * now rewrite list_lookup_insert_ne.
    + split; [now intros s |].
      intros [l |]; unfold hc_started_at; simpl; [| discriminate].
      destruct (decide (n = l)) as [<- |].
      * rewrite list_lookup_insert_eq by (eapply lookup_lt_Some; eauto).
        reflexivity.
      * now rewrite list_lookup_insert_ne.
  - apply started_kept_grows. eapply quiet_event_keeps_started; eauto.
Qed.

(** The instructions of the readiness predicates leave the startup flags and
    the collaborator as they are. *)
Lemma query_event_frame {X : Type} (e : Event X) (w w' : World) (x : X) :
  query_event e = true -> handle e w = Ok x w' ->
  same_startup_and_collaborator w w'.
Proof.
  intros Hq He. destruct e; simpl in Hq; try discriminate;
    unfold_handle He; unfold same_startup_and_collaborator; simpl;
    repeat split; try reflexivity;
    eapply fmap_insert_same; eauto.
Qed.

Lemma frame_refl (w : World) : same_startup_and_collaborator w w.
Proof. now repeat split. Qed.

Lemma frame_trans (a b c : World) :
  same_startup_and_collaborator a b ->
  same_startup_and_collaborator b c ->
  same_startup_and_collaborator a c.
Proof.
  intros (H1 & H2 & H3) (H4 & H5 & H6).
  repeat split; etransitivity; eauto.
Qed.

(** ** From instructions to programs *)

Section Along.
Context {A : Type} (P : forall X, Event X -> bool).

Lemma all_events_weaken (Q : forall X, Event X -> bool) (p : Prog A) :
  (forall X (e : Event X), P X e = true -> Q X e = true) ->
  all_events P p -> all_events Q p.
Proof.
  intros HPQ. induction p as [a | X e k IH]; simpl; [trivial |].
  intros [HP Hk]. split; [now apply HPQ | intros x; apply IH, Hk].
Qed.

(** One instruction of a program whose instructions all satisfy [P]: the
    instruction satisfied [P], and so do all those that remain. *)
Lemma tstep_all_events (p p' : Prog A) (w w' : World) (l : label) :
  all_events P p ->
  tstep p w = Some (l, p', w') ->
  all_events P p' /\
  exists X (e : Event X) (x : X),
    P X e = true /\ handle e w = Ok x w' /\ l = label_of e x.
Proof.
  destruct p as [a | X e k]; simpl; [discriminate |].
  intros [HP Hk] Hstep.
  destruct (handle e w) as [x w1 | |] eqn:He; try discriminate.
  injection Hstep as <- <- <-. split; [apply Hk | eauto 8].
Qed.

(** A reflexive and transitive relation between worlds that every
    instruction satisfying [P] respects holds along the whole way. *)
Variable R : World -> World -> Prop.
Hypothesis R_refl : forall w, R w w.
Hypothesis R_trans : forall a b c, R a b -> R b c -> R a c.
Hypothesis R_step :
  forall X (e : Event X) w x w',
    P X e = true -> handle e w = Ok x w' -> R w w'.

Lemma tsteps_all_events (p p' : Prog A) (w w' : World) :
  all_events P p -> tsteps p w p' w' -> R w w' /\ all_events P p'.
Proof.
  intros Hall Hsteps.
  induction Hsteps as [| p w l p1 w1 p2 w2 Hstep _ IH]; [now split |].
  destruct (tstep_all_events p p1 w w1 l Hall Hstep)
    as (Hall1 & X & e & x & HP & He & _).
  destruct (IH Hall1) as [HR Hall2]. split; [| exact Hall2].
  eapply R_trans; [eapply R_step; eauto | exact HR].
Qed.

End Along.

Lemma tstep_Vis {A X : Type} (e : Event X) (k : X -> Prog A)
    (w w' : World) (l : label) (p' : Prog A) :
  tstep (Vis e k) w = Some (l, p', w') ->
  exists x, handle e w = Ok x w' /\ p' = k x /\ l = label_of e x.
Proof.
  simpl. destruct (handle e w) as [x w1 | |]; try discriminate.
  intros [= <- <- <-]. eauto.
Qed.

(** A run that returns has passed through the states of [tsteps]. *)
Lemma run_tsteps {A : Type} (p : Prog A) (w w' : World) (a : A) :
  run p w = Ok a w' -> tsteps p w (Ret a) w'.
Proof.
  revert w. induction p as [a0 | X e k IH]; intros w Hrun; simpl in Hrun.
  - injection Hrun as <- <-. constructor.
  - destruct (handle e w) as [x w1 | |] eqn:He; try discriminate.
    eapply tsteps_step; [| apply IH; exact Hrun]. simpl. now rewrite He.
Qed.

(** ** The instructions of the package's programs *)

Ltac events :=
  repeat first
    [ progress simpl
    | match goal with
      | |- _ /\ _ => split
      | |- True => exact I
      | |- _ = _ => reflexivity
      | |- forall _, _ => intro
      | |- all_events _ (if ?b then _ else _) => destruct b
      | |- all_events _ (bind (if ?b then _ else _) _) => destruct b
      | |- all_events _ (match ?x with _ => _ end) => destruct x
      | |- all_events _ _ => case_match
      end ].

Ltac unfold_progs :=
  unfold op_prog, handler_body, goroutine_body;
  unfold readinessHandler_body, livenessHandler_body, hcReadinessHandler_body,
    hcLivenessHandler_body, serveTask_body, listenAndServeTask_body;
  unfold NewServer, Close, NotifyStarted, isLive, isReady, NewHealthCheck,
    CloseHealthCheck, NotifyReadyForConnections, livenessTest, readinessTest;
  unfold AvailableConn, http_ListenAndServe, http_Shutdown; unfold http_Serve.

Lemma isReady_only_queries (c s : ptr) : only_queries (isReady c s).
Proof. unfold only_queries, isReady, AvailableConn. events. Qed.

Lemma readinessTest_only_queries (c hc : ptr) : only_queries (readinessTest c hc).
Proof. unfold only_queries, readinessTest. events. Qed.

Lemma op_never_writes (o : Op) :
  is_notify o = false -> never_writes_started (op_prog o).
Proof.
  unfold never_writes_started.
  destruct o as [| | | | | | | | | | h rw | g]; simpl is_notify;
    try discriminate; intros _;
    try destruct h; try destruct g; unfold_progs; events.
Qed.

Lemma writes_resets {X : Type} (e : Event X) :
  negb (writes_started e) = true -> negb (resets_started e) = true.
Proof. destruct e; simpl; try reflexivity; discriminate. Qed.

Lemma op_never_resets (o : Op) : never_resets_started (op_prog o).
Proof.
  destruct (is_notify o) eqn:Hn.
  - unfold never_resets_started.
    destruct o; try discriminate; unfold_progs; events.
  - apply (all_events_weaken (fun X e => negb (writes_started e))).
    + intros X e. apply writes_resets.
    + now apply op_never_writes.
Qed.

(** ** C10: the readiness predicates only read *)

(** C10. From every world and for every pair of pointers, every state that
    [isReady] or [readinessTest] passes through, and so the state in which
    it returns, has the startup flags of all [Server] and [HC] objects and
    the clients, with their connection counts and limits, as they were. *)
Theorem readiness_is_read_only (w : World) (c s : ptr) :
  (forall p' w',
      tsteps (isReady c s) w p' w' -> same_startup_and_collaborator w w') /\
  (forall p' w',
      tsteps (readinessTest c s) w p' w' -> same_startup_and_collaborator w w') /\
  (forall b w',
      run (isReady c s) w = Ok b w' -> same_startup_and_collaborator w w') /\
  (forall b w',
      run (readinessTest c s) w = Ok b w' -> same_startup_and_collaborator w w').
Proof.
  assert (H1 : forall p' w',
             tsteps (isReady c s) w p' w' -> same_startup_and_collaborator w w').
  { intros p' w' Hsteps.
    apply (tsteps_all_events (@query_event) same_startup_and_collaborator
             frame_refl frame_trans
             (fun X e w x w' => query_event_frame e w w' x)
             (isReady c s) p' w w' (isReady_only_queries c s) Hsteps). }
  assert (H2 : forall p' w',
             tsteps (readinessTest c s) w p' w' -> same_startup_and_collaborator w w').
  { intros p' w' Hsteps.
    apply (tsteps_all_events (@query_event) same_startup_and_collaborator
             frame_refl frame_trans
             (fun X e w x w' => query_event_frame e w w' x)
             (readinessTest c s) p' w w' (readinessTest_only_queries c s) Hsteps). }
  split; [exact H1 |]. split; [exact H2 |]. split.
  - intros b w' Hrun. apply (H1 (Ret b)). now apply run_tsteps.
  - intros b w' Hrun. apply (H2 (Ret b)). now apply run_tsteps.
Qed.

Lemma readiness_is_read_only_witness :
  run (isReady (Some 0) (Some 0)) (probe_world true 10 10)
  = Ok false
      (with_logged [at_limit_msg 10] (probe_world true 10 10)) /\
  same_startup_and_collaborator (probe_world true 10 10)
    (with_logged [at_limit_msg 10] (probe_world true 10 10)).
Proof.
  destruct (readiness_is_read_only (probe_world true 10 10) (Some 0) (Some 0))
    as (_ & _ & H3 & _).
  split; [reflexivity |]. exact (H3 false _ eq_refl).
Defined.

(** ** Executions of the process *)

Lemma pstep_grows (cfg cfg' : World * Pool) (l : label) :
  pstep cfg l cfg' ->
  pool_never_resets cfg.2 ->
  started_grows cfg.1 cfg'.1 /\ pool_never_resets cfg'.2.
Proof.
  unfold pool_never_resets, never_resets_started.
  intros Hstep Hpool. destruct Hstep; simpl in *.
  - pose proof (Forall_lookup_1 _ _ _ _ Hpool H) as Hp.
    destruct (tstep_all_events _ _ _ _ _ _ Hp H0)
      as (Hp' & X & e & x & HP & He & _).
    split.
    + apply negb_true_iff in HP. eapply event_grows_started; eauto.
    + now apply Forall_insert.
  - split; [apply started_kept_grows; kept |].
    apply Forall_app. split; [exact Hpool |]. constructor; [| constructor].
    apply (op_never_resets (op_goroutine g)).
  - split; [apply started_kept_grows; kept |].
    apply Forall_app. split; [exact Hpool |]. constructor; [| constructor].
    apply (op_never_resets (op_handler h (Some (length (responses w))))).
  - split; [apply started_kept_grows; kept |].
    apply Forall_app. split; [exact Hpool |]. constructor; [| constructor].
    apply op_never_resets.
  - split; [apply started_kept_grows; kept | exact Hpool].
  - split; [apply started_kept_grows; kept | exact Hpool].
  - split; [apply started_kept_grows; kept | exact Hpool].
Qed.

Lemma exec_grows (cfg cfg' : World * Pool) (tr : list label) :
  exec cfg tr cfg' ->
  pool_never_resets cfg.2 ->
  started_grows cfg.1 cfg'.1 /\ pool_never_resets cfg'.2.
Proof.
  induction 1 as [cfg | cfg l cfg1 tr cfg2 Hstep _ IH]; intros Hpool.
  - split; [apply started_grows_refl | exact Hpool].
  - destruct (pstep_grows _ _ _ Hstep Hpool) as [Hg Hpool1].
    destruct (IH Hpool1) as [Hg' Hpool2].
    split; [eapply started_grows_trans; eauto | exact Hpool2].
Qed.

Lemma exec_app (cfg cfg' : World * Pool) (tr1 tr2 : list label) :
  exec cfg (tr1 ++ tr2) cfg' ->
  exists mid, exec cfg tr1 mid /\ exec mid tr2 cfg'.
Proof.
  revert cfg. induction tr1 as [| l tr1 IH]; intros cfg Hexec; simpl in Hexec.
  - exists cfg. split; [constructor | exact Hexec].
  - inversion Hexec as [| ? ? cfg1 ? ? Hstep Hrest]; subst.
    destruct (IH _ Hrest) as (mid & H1 & H2).
    exists mid. split; [econstructor; eauto | exact H2].
Qed.

(** A step that shows a startup flag shows the flag the world has. *)
Lemma observed_started (cfg cfg' : World * Pool) (s : ptr) (b : bool) :
  pstep cfg (ObsStarted s b) cfg' -> started_at cfg.1 s = Some b.
Proof.
  intros Hstep. inversion Hstep as [w pool i p l p' w' Hp Ht | | | | | |]; subst.
  destruct p as [a | X e k]; simpl in Ht; [discriminate |].
  destruct (handle e w) as [x w1 | |] eqn:He; try discriminate.
  injection Ht as Hl <- <-.
  destruct e; simpl in Hl; try discriminate. injection Hl as -> ->.
  unfold started_at. simpl. unfold_handle He. simpl. now rewrite H.
Qed.

Lemma observed_hc_started (cfg cfg' : World * Pool) (hc : ptr) (b : bool) :
  pstep cfg (ObsHCStarted hc b) cfg' -> hc_started_at cfg.1 hc = Some b.
Proof.
  intros Hstep. inversion Hstep as [w pool i p l p' w' Hp Ht | | | | | |]; subst.
  destruct p as [a | X e k]; simpl in Ht; [discriminate |].
  destruct (handle e w) as [x w1 | |] eqn:He; try discriminate.
  injection Ht as Hl <- <-.
  destruct e; simpl in Hl; try discriminate. injection Hl as -> ->.
  unfold hc_started_at. simpl. unfold_handle He. simpl. now rewrite H.
Qed.

(** From a world where a flag is set, every observation of it is [true]. *)
Lemma observed_after_set (cfg cfg' : World * Pool) (tr : list label) :
  exec cfg tr cfg' ->
  pool_never_resets cfg.2 ->
  (forall s b,
      started_at cfg.1 s = Some true -> In (ObsStarted s b) tr -> b = true) /\
  (forall hc b,
      hc_started_at cfg.1 hc = Some true -> In (ObsHCStarted hc b) tr -> b = true).
Proof.
  induction 1 as [cfg | cfg l cfg1 tr cfg2 Hstep _ IH]; intros Hpool.
  - split; intros ? ? _ [].
  - destruct (pstep_grows _ _ _ Hstep Hpool) as [[Hg Hg'] Hpool1].
    destruct (IH Hpool1) as [IH1 IH2]. split.
    + intros s b Hset [-> | Hin].
      * pose proof (observed_started _ _ _ _ Hstep) as Hobs. congruence.
      * eapply IH1; eauto.
    + intros hc b Hset [-> | Hin].
      * pose proof (observed_hc_started _ _ _ _ Hstep) as Hobs. congruence.
      * eapply IH2; eauto.
Qed.

Lemma observed_true_stays_true
    (cfg cfg' : World * Pool) (tr1 tr2 : list label) :
  pool_never_resets cfg.2 ->
  exec cfg (tr1 ++ tr2) cfg' ->
  (forall s b, In (ObsStarted s true) tr1 -> In (ObsStarted s b) tr2 -> b = true) /\
  (forall hc b,
      In (ObsHCStarted hc true) tr1 -> In (ObsHCStarted hc b) tr2 -> b = true).
Proof.
  intros Hpool Hexec. split.
  - intros s b Hin1 Hin2.
    apply in_split in Hin1 as (ta & tb & ->).
    rewrite <- app_assoc in Hexec. simpl in Hexec.
    apply exec_app in Hexec as (mid & Ha & Hrest).
    destruct (exec_grows _ _ _ Ha Hpool) as [_ Hpool_mid].
    destruct (observed_after_set _ _ _ Hrest Hpool_mid) as [Hobs _].
    inversion Hrest as [| ? ? mid1 ? ? Hstep Htail]; subst.
    pose proof (observed_started _ _ _ _ Hstep) as Hset.
    apply (Hobs s b Hset). right. apply in_or_app. now right.
  - intros hc b Hin1 Hin2.
    apply in_split in Hin1 as (ta & tb & ->).
    rewrite <- app_assoc in Hexec. simpl in Hexec.
    apply exec_app in Hexec as (mid & Ha & Hrest).
    destruct (exec_grows _ _ _ Ha Hpool) as [_ Hpool_mid].
    destruct (observed_after_set _ _ _ Hrest Hpool_mid) as [_ Hobs].
    inversion Hrest as [| ? ? mid1 ? ? Hstep Htail]; subst.
    pose proof (observed_hc_started _ _ _ _ Hstep) as Hset.
    apply (Hobs hc b Hset). right. apply in_or_app. now right.
Qed.

Lemma step_thread_to (w w' : World) (pool : Pool) (i : nat) (p p' : Prog unit)
    (l : label) (cfg' : World * Pool) :
  pool !! i = Some p ->
  tstep p w = Some (l, p', w') ->
  cfg' = (w', <[i := p']> pool) ->
  pstep (w, pool) l cfg'.
Proof. intros Hp Ht ->. now apply step_thread with (p := p). Qed.

(** ** C2: the startup flag only ever goes from false to true *)

Lemma NewServer_constructs_unstarted
    (w w' : World) (c : ptr) (port : string) (s : nat) :
  run (NewServer c port) w = Ok (Some s, None) w' ->
  started_at w' (Some s) = Some false.
Proof.
  intros Hrun. destruct (bind_error (netBusy w) (":" +:+ port)) as [e |] eqn:Hb.
  - destruct (NewServer_bind_fails w c port e Hb) as (w1 & Hrun1 & _).
    congruence.
  - destruct (NewServer_bind_succeeds w c port Hb) as (w1 & Hrun1 & Hst & _).
    congruence.
Qed.

Lemma NewHealthCheck_constructs_unstarted
    (w w' : World) (c : ptr) (hc : nat) :
  run (NewHealthCheck c) w = Ok (Some hc) w' ->
  hc_started_at w' (Some hc) = Some false.
Proof.
  intros Hrun.
  destruct (registered (DefaultServeMux w) readinessPath) eqn:Hr.
  - revert Hrun. unfold NewHealthCheck. exec. unfold register. exec.
    intros [=].
  - destruct (registered (DefaultServeMux w) livenessPath) eqn:Hl.
    + revert Hrun. unfold NewHealthCheck. exec.
      rewrite (register_free _ readinessPath _ eq_refl Hr). exec.
      unfold register. exec. rewrite registered_app, Hl. exec. intros [=].
    + destruct (NewHealthCheck_outcome w c Hr Hl) as (w1 & Hrun1 & Hst & _).
      congruence.
Qed.

(** C2. The flag of a freshly constructed [Server] or [HC] is false. Of
    the operations of the package only [NotifyStarted] and
    [NotifyReadyForConnections] contain a store to a startup flag, and no
    operation contains a store of false. So in every execution of the
    process, whatever goroutines, requests, calls of operations and
    collaborator activity it interleaves, a flag that is set stays set, and
    once a load has shown a flag to be true every later load of it shows
    true. *)
Theorem started_is_monotonic :
  (forall w w' c port s,
      run (NewServer c port) w = Ok (Some s, None) w' ->
      started_at w' (Some s) = Some false) /\
  (forall w w' c hc,
      run (NewHealthCheck c) w = Ok (Some hc) w' ->
      hc_started_at w' (Some hc) = Some false) /\
  (forall o, is_notify o = false -> never_writes_started (op_prog o)) /\
  (forall o, never_resets_started (op_prog o)) /\
  (forall cfg tr cfg',
      pool_never_resets cfg.2 ->
      exec cfg tr cfg' ->
      started_grows cfg.1 cfg'.1 /\
      forall tr1 tr2,
        tr = tr1 ++ tr2 ->
        (forall s b,
            In (ObsStarted s true) tr1 -> In (ObsStarted s b) tr2 -> b = true) /\
        (forall hc b,
            In (ObsHCStarted hc true) tr1 -> In (ObsHCStarted hc b) tr2 ->
            b = true)).
Proof.
  split; [| split; [| split; [| split]]].
  - intros w w' c port s. apply NewServer_constructs_unstarted.
  - intros w w' c hc. apply NewHealthCheck_constructs_unstarted.
  - exact op_never_writes.
  - exact op_never_resets.
  - intros cfg tr cfg' Hpool Hexec. split.
    + now destruct (exec_grows _ _ _ Hexec Hpool).
    + intros tr1 tr2 ->. now apply (observed_true_stays_true cfg cfg').
Qed.

Lemma started_is_monotonic_witness :
  pool_never_resets polling_start.2 /\
  exec polling_start [Silent; ObsStarted (Some 0) true] polling_read /\
  started_grows polling_start.1 polling_read.1.
Proof.
  assert (Hpool : pool_never_resets polling_start.2).
  { constructor; [apply op_never_resets | constructor]. }
  assert (Hexec : exec polling_start [Silent; ObsStarted (Some 0) true] polling_read).
  { eapply exec_cons; [| eapply exec_cons; [| apply exec_nil]].
    - eapply (step_thread_to _ _ _ 0); reflexivity.
    - eapply (step_thread_to _ _ _ 0); reflexivity. }
  destruct started_is_monotonic as (_ & _ & _ & _ & H).
  destruct (H _ _ _ Hpool Hexec) as [Hg _].
  split; [exact Hpool |]. split; [exact Hexec | exact Hg].
Defined.

(** ** The start notification, run alone *)

Lemma with_servers_twice (w : World) (x y : list Server) :
  with_servers x (with_servers y w) = with_servers x w.
Proof. reflexivity. Qed.

Lemma with_hcs_startupL (w : World) (x : list HC) :
  startupL_held w = false ->
  with_startupL false (with_hcs x (with_startupL true w)) = with_hcs x w.
Proof. destruct w; simpl; now intros ->. Qed.

Lemma NotifyStarted_outcome (w : World) (s : nat) (sv : Server) :
  servers w !! s = Some sv ->
  startedL sv = false ->
  run (NotifyStarted (Some s)) w
  = Ok tt (with_servers (<[s := set_started true sv]> (servers w)) w).
Proof.
  intros Hs Hl. unfold NotifyStarted, mutex_lock. exec.
  rewrite !with_servers_twice, !list_insert_insert_eq.
  replace (set_startedL false (set_started true (set_startedL true sv)))
    with (set_started true sv) by (destruct sv; simpl in *; now subst).
  reflexivity.
Qed.

Lemma NotifyReadyForConnections_outcome (w : World) (hc : nat) (h : HC) :
  hcs w !! hc = Some h ->
  startupL_held w = false ->
  run (NotifyReadyForConnections (Some hc)) w
  = Ok tt (with_hcs (<[hc := set_hc_started true h]> (hcs w)) w).
Proof.
  intros Hh Hl. unfold NotifyReadyForConnections. exec.
  f_equal. now apply with_hcs_startupL.
Qed.

Lemma NotifyStarted_twice (w : World) (s : ptr) :
  run (NotifyStarted s ;; NotifyStarted s) w = run (NotifyStarted s) w.
Proof.
  rewrite run_bind. destruct s as [l |]; [| reflexivity].
  destruct (servers w !! l) as [sv |] eqn:Hs.
  - destruct (startedL sv) eqn:Hl.
    + unfold NotifyStarted, mutex_lock. exec. reflexivity.
    + rewrite (NotifyStarted_outcome w l sv Hs Hl).
      erewrite NotifyStarted_outcome;
        [| simpl; apply list_lookup_insert_eq; eapply lookup_lt_Some; eauto
         | exact Hl].
      simpl. now rewrite list_insert_insert_eq.
  - unfold NotifyStarted, mutex_lock. exec. reflexivity.
Qed.

Lemma NotifyReadyForConnections_twice (w : World) (hc : ptr) :
  run (NotifyReadyForConnections hc ;; NotifyReadyForConnections hc) w
  = run (NotifyReadyForConnections hc) w.
Proof.
  rewrite run_bind. destruct hc as [l |]; [| reflexivity].
  destruct (startupL_held w) eqn:Hl.
  - unfold NotifyReadyForConnections. exec. reflexivity.
  - destruct (hcs w !! l) as [h |] eqn:Hh.
    + rewrite (NotifyReadyForConnections_outcome w l h Hh Hl).
      erewrite NotifyReadyForConnections_outcome;
        [| simpl; apply list_lookup_insert_eq; eapply lookup_lt_Some; eauto
         | exact Hl].
      simpl. now rewrite list_insert_insert_eq.
    + unfold NotifyReadyForConnections. exec. reflexivity.
Qed.

(** ** The start notification among other goroutines *)

Lemma NotifyStarted_returned (s : ptr) (n : nat) :
  NotifyStarted_after s n = Ret tt -> 2 <= n.
Proof. destruct n as [| [| [| n]]]; try discriminate; lia. Qed.

Lemma NotifyReadyForConnections_returned (hc n : nat) :
  NotifyReadyForConnections_after (Some hc) n = Ret tt -> 2 <= n.
Proof. destruct n as [| [| [| n]]]; try discriminate; lia. Qed.

(** The goroutine at [i] stays a remainder of [NotifyStarted s], and once
    it is past its store the flag of [s] is set. *)
Lemma NotifyStarted_thread_step
    (cfg cfg' : World * Pool) (l : label) (i : nat) (s : ptr) (n : nat) :
  pstep cfg l cfg' ->
  pool_never_resets cfg.2 ->
  cfg.2 !! i = Some (NotifyStarted_after s n) ->
  (2 <= n -> started_at cfg.1 s = Some true) ->
  exists n',
    cfg'.2 !! i = Some (NotifyStarted_after s n') /\
    (2 <= n' -> started_at cfg'.1 s = Some true).
Proof.
  intros Hstep Hpool Hi Hinv.
  destruct (pstep_grows _ _ _ Hstep Hpool) as [[Hg _] _].
  destruct Hstep as [w pool j p l p' w' Hj Ht | | | | | |]; cbn [fst snd] in *;
    try (exists n; split; [try apply lookup_app_l_Some; exact Hi | auto]).
  destruct (decide (j = i)) as [-> | Hne].
  - assert (Hlen : i < length pool) by (eapply lookup_lt_Some; eauto).
    rewrite Hi in Hj. injection Hj as <-.
    destruct n as [| [| [| n]]]; [| | | discriminate].
    + destruct (tstep_Vis (MutexLock (ServerStartedL s))
                  (fun _ => NotifyStarted_after s 1) w w' l p' Ht)
        as ([] & He & -> & _).
      exists 1. split; [now apply list_lookup_insert_eq | lia].
    + destruct (tstep_Vis (StoreStarted s true)
                  (fun _ => NotifyStarted_after s 2) w w' l p' Ht)
        as ([] & He & -> & _).
      exists 2. split; [now apply list_lookup_insert_eq |]. intros _.
      unfold started_at. unfold_handle He. simpl.
      rewrite list_lookup_insert_eq by (eapply lookup_lt_Some; eauto).
      reflexivity.
    + destruct (tstep_Vis (MutexUnlock (ServerStartedL s)) Ret w w' l p' Ht)
        as ([] & He & -> & _).
      exists 3. split; [now apply list_lookup_insert_eq |]. intros _.
      apply Hg, Hinv. lia.
  - exists n. split; [now rewrite list_lookup_insert_ne | auto].
Qed.

Lemma NotifyReadyForConnections_thread_step
    (cfg cfg' : World * Pool) (l : label) (i hc n : nat) :
  pstep cfg l cfg' ->
  pool_never_resets cfg.2 ->
  cfg.2 !! i = Some (NotifyReadyForConnections_after (Some hc) n) ->
  (2 <= n -> hc_started_at cfg.1 (Some hc) = Some true) ->
  exists n',
    cfg'.2 !! i = Some (NotifyReadyForConnections_after (Some hc) n') /\
    (2 <= n' -> hc_started_at cfg'.1 (Some hc) = Some true).
Proof.
  intros Hstep Hpool Hi Hinv.
  destruct (pstep_grows _ _ _ Hstep Hpool) as [[_ Hg] _].
  destruct Hstep as [w pool j p l p' w' Hj Ht | | | | | |]; cbn [fst snd] in *;
    try (exists n; split; [try apply lookup_app_l_Some; exact Hi | auto]).
  destruct (decide (j = i)) as [-> | Hne].
  - assert (Hlen : i < length pool) by (eapply lookup_lt_Some; eauto).
    rewrite Hi in Hj. injection Hj as <-.
    destruct n as [| [| [| n]]]; [| | | discriminate].
    + destruct (tstep_Vis (MutexLock startupL)
                  (fun _ => NotifyReadyForConnections_after (Some hc) 1)
                  w w' l p' Ht)
        as ([] & He & -> & _).
      exists 1. split; [now apply list_lookup_insert_eq | lia].
    + destruct (tstep_Vis (StoreHCStarted (Some hc) true)
                  (fun _ => NotifyReadyForConnections_after (Some hc) 2)
                  w w' l p' Ht)
        as ([] & He & -> & _).
      exists 2. split; [now apply list_lookup_insert_eq |]. intros _.
      unfold hc_started_at. unfold_handle He. simpl.
      rewrite list_lookup_insert_eq by (eapply lookup_lt_Some; eauto).
      reflexivity.
    + destruct (tstep_Vis (MutexUnlock startupL) Ret w w' l p' Ht)
        as ([] & He & -> & _).
      exists 3. split; [now apply list_lookup_insert_eq |]. intros _.
      apply Hg, Hinv. lia.
  - exists n. split; [now rewrite list_lookup_insert_ne | auto].
Qed.

Lemma NotifyStarted_thread_exec
    (cfg cfg' : World * Pool) (tr : list label) (i : nat) (s : ptr) :
  exec cfg tr cfg' ->
  pool_never_resets cfg.2 ->
  forall n,
    cfg.2 !! i = Some (NotifyStarted_after s n) ->
    (2 <= n -> started_at cfg.1 s = Some true) ->
    exists n',
      cfg'.2 !! i = Some (NotifyStarted_after s n') /\
      (2 <= n' -> started_at cfg'.1 s = Some true).
Proof.
  induction 1 as [cfg | cfg l cfg1 tr cfg2 Hstep _ IH]; intros Hpool n Hi Hinv.
  - eauto.
  - destruct (NotifyStarted_thread_step _ _ _ _ _ _ Hstep Hpool Hi Hinv)
      as (n1 & Hi1 & Hinv1).
    destruct (pstep_grows _ _ _ Hstep Hpool) as [_ Hpool1]. eauto.
Qed.

Lemma NotifyReadyForConnections_thread_exec
    (cfg cfg' : World * Pool) (tr : list label) (i hc : nat) :
  exec cfg tr cfg' ->
  pool_never_resets cfg.2 ->
  forall n,
    cfg.2 !! i = Some (NotifyReadyForConnections_after (Some hc) n) ->
    (2 <= n -> hc_started_at cfg.1 (Some hc) = Some true) ->
    exists n',
      cfg'.2 !! i = Some (NotifyReadyForConnections_after (Some hc) n') /\
      (2 <= n' -> hc_started_at cfg'.1 (Some hc) = Some true).
Proof.
  induction 1 as [cfg | cfg l cfg1 tr cfg2 Hstep _ IH]; intros Hpool n Hi Hinv.
  - eauto.
  - destruct (NotifyReadyForConnections_thread_step _ _ _ _ _ _ Hstep Hpool Hi Hinv)
      as (n1 & Hi1 & Hinv1).
    destruct (pstep_grows _ _ _ Hstep Hpool) as [_ Hpool1]. eauto.
Qed.

(** ** C5: the start notification *)

(** C5. In every world, two calls of the start notification in sequence
    have the outcome of one call. On a valid receiver whose lock is free the
    call returns, nothing but [tt], having set the flag and changed nothing
    else; it has no other way to return. And in every execution of the
    process, once a goroutine that called the notification has returned, the
    flag is set, and every load of the flag from then on shows true. *)
Theorem notify_is_idempotent_and_infallible :
  (forall w s,
      run (NotifyStarted s ;; NotifyStarted s) w = run (NotifyStarted s) w) /\
  (forall w hc,
      run (NotifyReadyForConnections hc ;; NotifyReadyForConnections hc) w
      = run (NotifyReadyForConnections hc) w) /\
  (forall w s sv,
      servers w !! s = Some sv ->
      startedL sv = false ->
      run (NotifyStarted (Some s)) w
      = Ok tt (with_servers (<[s := set_started true sv]> (servers w)) w)) /\
  (forall w hc h,
      hcs w !! hc = Some h ->
      startupL_held w = false ->
      run (NotifyReadyForConnections (Some hc)) w
      = Ok tt (with_hcs (<[hc := set_hc_started true h]> (hcs w)) w)) /\
  (forall (cfg cfg' : World * Pool) tr i s,
      pool_never_resets cfg.2 ->
      cfg.2 !! i = Some (NotifyStarted s) ->
      exec cfg tr cfg' ->
      cfg'.2 !! i = Some (Ret tt) ->
      started_at cfg'.1 s = Some true /\
      forall tr' cfg'' b,
        exec cfg' tr' cfg'' -> In (ObsStarted s b) tr' -> b = true) /\
  (forall (cfg cfg' : World * Pool) tr i hc,
      pool_never_resets cfg.2 ->
      cfg.2 !! i = Some (NotifyReadyForConnections (Some hc)) ->
      exec cfg tr cfg' ->
      cfg'.2 !! i = Some (Ret tt) ->
      hc_started_at cfg'.1 (Some hc) = Some true /\
      forall tr' cfg'' b,
        exec cfg' tr' cfg'' -> In (ObsHCStarted (Some hc) b) tr' -> b = true).
Proof.
  split; [exact NotifyStarted_twice |].
  split; [exact NotifyReadyForConnections_twice |].
  split; [exact NotifyStarted_outcome |].
  split; [exact NotifyReadyForConnections_outcome |].
  split.
  - intros cfg cfg' tr i s Hpool Hi Hexec Hret.
    destruct (NotifyStarted_thread_exec cfg cfg' tr i s Hexec Hpool 0 Hi)
      as (n & Hn & Hset); [lia |].
    destruct (exec_grows _ _ _ Hexec Hpool) as [_ Hpool'].
    assert (Hst : started_at cfg'.1 s = Some true).
    { apply Hset, (NotifyStarted_returned s). congruence. }
    split; [exact Hst |]. intros tr' cfg'' b Hexec' Hin.
    destruct (observed_after_set _ _ _ Hexec' Hpool') as [Hobs _]. eauto.
  - intros cfg cfg' tr i hc Hpool Hi Hexec Hret.
    destruct (NotifyReadyForConnections_thread_exec cfg cfg' tr i hc Hexec Hpool 0 Hi)
      as (n & Hn & Hset); [lia |].
    destruct (exec_grows _ _ _ Hexec Hpool) as [_ Hpool'].
    assert (Hst : hc_started_at cfg'.1 (Some hc) = Some true).
    { apply Hset, (NotifyReadyForConnections_returned hc). congruence. }
    split; [exact Hst |]. intros tr' cfg'' b Hexec' Hin.
    destruct (observed_after_set _ _ _ Hexec' Hpool') as [_ Hobs]. eauto.
Qed.

Lemma notify_is_idempotent_and_infallible_witness :
  startupL_held (probe_world false 0 0) = false /\
  started_at (probe_world false 0 0) (Some 0) = Some false /\
  (fun w => started_at w (Some 0)) <$>
    final (run (NotifyStarted (Some 0)) (probe_world false 0 0))
  = Some (Some true) /\
  returned (run (NotifyReadyForConnections (Some 0)) (probe_world false 0 0))
  = Some tt.
Proof.
  destruct notify_is_idempotent_and_infallible as (_ & _ & H3 & H4 & _).
  split; [reflexivity |]. split; [reflexivity |]. split.
  - rewrite (H3 (probe_world false 0 0) 0 _ eq_refl eq_refl). reflexivity.
  - rewrite (H4 (probe_world false 0 0) 0 _ eq_refl eq_refl). reflexivity.
Defined.

(** ** Liveness among other goroutines *)

Lemma op_never_clears_live (o : Op) : never_clears_live (op_prog o).
Proof.
  unfold never_clears_live.
  destruct o as [| | | | | | | | | | h rw | g];
    try destruct h; try destruct g; unfold_progs; events.
Qed.

Lemma event_keeps_live {X : Type} (e : Event X) (w w' : World) (x : X) :
  clears_live e = false -> handle e w = Ok x w' -> all_live w -> all_live w'.
Proof.
  unfold all_live. intros Hq He Hall.
  destruct e; simpl in Hq; try apply negb_false_iff in Hq; subst;
    unfold_handle He; simpl; try assumption;
    first [ apply Forall_insert; [assumption | reflexivity]
          | apply Forall_app; split; [assumption | now repeat constructor]
          | apply Forall_insert; [assumption |];
            simpl; eapply (Forall_lookup_1 _ _ _ _ Hall); eassumption ].
Qed.

Lemma pstep_keeps_live (cfg cfg' : World * Pool) (l : label) :
  pstep cfg l cfg' ->
  pool_never_clears_live cfg.2 ->
  all_live cfg.1 ->
  all_live cfg'.1 /\ pool_never_clears_live cfg'.2.
Proof.
  unfold pool_never_clears_live, never_clears_live.
  intros Hstep Hpool Hlive. destruct Hstep; cbn [fst snd] in *.
  - pose proof (Forall_lookup_1 _ _ _ _ Hpool H) as Hp.
    destruct (tstep_all_events _ _ _ _ _ _ Hp H0)
      as (Hp' & X & e & x & HP & He & _).
    split.
    + apply negb_true_iff in HP. eapply event_keeps_live; eauto.
    + now apply Forall_insert.
  - split; [exact Hlive |].
    apply Forall_app. split; [exact Hpool |]. constructor; [| constructor].
    apply (op_never_clears_live (op_goroutine g)).
  - split; [exact Hlive |].
    apply Forall_app. split; [exact Hpool |]. constructor; [| constructor].
    apply (op_never_clears_live (op_handler h (Some (length (responses w))))).
  - split; [exact Hlive |].
    apply Forall_app. split; [exact Hpool |]. constructor; [| constructor].
    apply op_never_clears_live.
  - split; [exact Hlive | exact Hpool].
  - split; [exact Hlive | exact Hpool].
  - split; [exact Hlive | exact Hpool].
Qed.

Lemma observed_live (cfg cfg' : World * Pool) (hc : ptr) (b : bool) :
  pstep cfg (ObsLive hc b) cfg' -> all_live cfg.1 -> b = true.
Proof.
  intros Hstep Hlive.
  inversion Hstep as [w pool i p l p' w' Hp Ht | | | | | |]; subst.
  destruct p as [a | X e k]; simpl in Ht; [discriminate |].
  destruct (handle e w) as [x w1 | |] eqn:He; try discriminate.
  injection Ht as Hl <- <-.
  destruct e; simpl in Hl; try discriminate. injection Hl as -> ->.
  unfold_handle He. eapply (Forall_lookup_1 _ _ _ _ Hlive); eassumption.
Qed.

Lemma exec_observes_live (cfg cfg' : World * Pool) (tr : list label) :
  exec cfg tr cfg' ->
  pool_never_clears_live cfg.2 ->
  all_live cfg.1 ->
  forall hc b, In (ObsLive hc b) tr -> b = true.
Proof.
  induction 1 as [cfg | cfg l cfg1 tr cfg2 Hstep _ IH]; intros Hpool Hlive hc b.
  - intros [].
  - destruct (pstep_keeps_live _ _ _ Hstep Hpool Hlive) as [Hlive1 Hpool1].
    intros [-> | Hin].
    + eapply observed_live; eauto.
    + eapply IH; eauto.
Qed.

(** ** C3: liveness *)

(** C3. [isLive] and [livenessTest] return true from every world. The
    liveness handler of [NewServer] is, as a program, its success branch
    alone. The one of [NewHealthCheck] branches on [hc.live], which it has
    just stored: run alone, whenever it returns it has answered 200; and in
    every execution of the process from a world where every [hc.live] is
    true, no operation of the package makes one false, so every load of
    [hc.live] reads true and the 500 branch is never entered. With its
    captured pointer valid and its lock free, each liveness handler returns,
    having answered 200. *)
Theorem liveness_always_succeeds :
  (forall w, run isLive w = Ok true w) /\
  (forall w, run livenessTest w = Ok true w) /\
  (forall rw,
      livenessHandler_body rw
      = (call (WriteHeader rw 200) ;; call (Write rw "ok"))) /\
  (forall w w' hc rw,
      responses w !! rw = Some fresh_response ->
      run (hcLivenessHandler_body hc (Some rw)) w = Ok tt w' ->
      status <$> responses w' !! rw = Some (Some 200%Z)) /\
  (forall o, never_clears_live (op_prog o)) /\
  (forall (cfg cfg' : World * Pool) tr,
      pool_never_clears_live cfg.2 ->
      all_live cfg.1 ->
      exec cfg tr cfg' ->
      forall hc b, In (ObsLive hc b) tr -> b = true) /\
  (forall w rw,
      responses w !! rw = Some fresh_response ->
      status <$> response_after (run (livenessHandler_body (Some rw)) w) rw
      = Some (Some 200%Z)) /\
  (forall w hc rw h,
      hcs w !! hc = Some h ->
      livenessL_held w = false ->
      responses w !! rw = Some fresh_response ->
      status <$>
        response_after (run (hcLivenessHandler_body (Some hc) (Some rw)) w) rw
      = Some (Some 200%Z)).
Proof.
  split; [reflexivity |]. split; [reflexivity |]. split; [reflexivity |].
  split; [| split; [exact op_never_clears_live | split; [| split]]].
  - intros w w' hc rw Hr Hrun.
    now rewrite (hcLivenessHandler_returns_200 w w' hc rw Hr Hrun).
  - intros cfg cfg' tr Hpool Hlive Hexec.
    exact (exec_observes_live cfg cfg' tr Hexec Hpool Hlive).
  - intros w rw Hr. rewrite (livenessHandler_outcome w rw Hr). simpl.
    rewrite list_lookup_insert_eq by (eapply lookup_lt_Some; eauto).
    reflexivity.
  - intros w hc rw h Hh Hl Hr.
    now rewrite (hcLivenessHandler_outcome w hc rw h Hh Hl Hr).
Qed.

Lemma liveness_always_succeeds_witness :
  responses (request_world false 10 10) !! 0 = Some fresh_response /\
  livenessL_held (request_world false 10 10) = false /\
  status <$>
    response_after (run (livenessHandler_body (Some 0)) (request_world false 10 10)) 0
  = Some (Some 200%Z) /\
  status <$>
    response_after
      (run (hcLivenessHandler_body (Some 0) (Some 0)) (request_world false 10 10)) 0
  = Some (Some 200%Z).
Proof.
  destruct liveness_always_succeeds as (_ & _ & _ & _ & _ & _ & H1 & H2).
  split; [reflexivity |]. split; [reflexivity |]. split.
  - exact (H1 (request_world false 10 10) 0 eq_refl).
  - exact (H2 (request_world false 10 10) 0 0 _ eq_refl eq_refl eq_refl).
Defined.

(** * Further properties of the package *)

(** ** Every lock that is taken is given back *)

Lemma lock_event (m0 : Mutex) (w w' : World) (x : unit) :
  handle (MutexLock m0) w = Ok x w' ->
  lock_held w m0 = Some false /\
  lock_held w' m0 = Some true /\
  forall m, m <> m0 -> lock_held w' m = lock_held w m.
Proof.
  intros He. destruct m0 as [[l |] | | |]; unfold_handle He; simpl.
  - rewrite list_lookup_insert_eq by (eapply lookup_lt_Some; eauto).
    match goal with H : servers w !! l = Some ?sv, E : startedL ?sv = false |- _ =>
      rewrite H; simpl; rewrite E end.
    repeat split. intros [[l' |] | | |] Hne; simpl; try reflexivity.
    destruct (decide (l = l')) as [-> |]; [congruence |].
    now rewrite list_lookup_insert_ne.
  - repeat split; try congruence. intros [] Hne; simpl; congruence.
  - repeat split; try congruence. intros [] Hne; simpl; congruence.
  - repeat split; try congruence. intros [] Hne; simpl; congruence.
Qed.

Lemma unlock_event (m0 : Mutex) (w w' : World) (x : unit) :
  handle (MutexUnlock m0) w = Ok x w' ->
  lock_held w m0 = Some true /\
  lock_held w' m0 = Some false /\
  forall m, m <> m0 -> lock_held w' m = lock_held w m.
Proof.
  intros He. destruct m0 as [[l |] | | |]; unfold_handle He; simpl.
  - rewrite list_lookup_insert_eq by (eapply lookup_lt_Some; eauto).
    match goal with H : servers w !! l = Some ?sv, E : startedL ?sv = true |- _ =>
      rewrite H; simpl; rewrite E end.
    repeat split. intros [[l' |] | | |] Hne; simpl; try reflexivity.
    destruct (decide (l = l')) as [-> |]; [congruence |].
    now rewrite list_lookup_insert_ne.
  - repeat split; try congruence. intros [] Hne; simpl; congruence.
  - repeat split; try congruence. intros [] Hne; simpl; congruence.
  - repeat split; try congruence. intros [] Hne; simpl; congruence.
Qed.

Lemma other_event_keeps_locks {X : Type} (e : Event X) (w w' : World) (x : X) :
  lock_action e = NoLock ->
  handle e w = Ok x w' ->
  forall m b, lock_held w m = Some b -> lock_held w' m = Some b.
Proof.
  intros Hq He m b.
  destruct e; simpl in Hq; try discriminate; unfold_handle He;
    destruct m as [[lm |] | | |]; simpl; try (intros; assumption);
    first [ apply heap_kept_app
          | eapply heap_kept_insert; [eassumption | reflexivity] ].
Qed.

Lemma balanced_run {A : Type} (p : Prog A) :
  forall held w a w',
    balanced held p ->
    run p w = Ok a w' ->
    forall m b,
      lock_held w m = Some b ->
      lock_held w' m = Some (b && negb (bool_decide (m ∈ held))).
Proof.
  induction p as [a0 | X e k IH]; intros held w a w' Hbal Hrun m b Hm.
  - simpl in Hbal, Hrun. subst held. injection Hrun as _ <-.
    rewrite Hm. now rewrite andb_true_r.
  - simpl in Hrun. destruct (handle e w) as [x w1 | |] eqn:He; try discriminate.
    simpl in Hbal. destruct (lock_action e) as [m0 | m0 |] eqn:Ha.
    + destruct e; try discriminate. injection Ha as ->.
      destruct (lock_event _ _ _ _ He) as (Hfree & Htaken & Hother).
      destruct (decide (m = m0)) as [-> | Hne].
      * rewrite (IH x _ _ _ _ (Hbal x) Hrun m0 true Htaken).
        rewrite Hfree in Hm. injection Hm as <-.
        rewrite (bool_decide_eq_true_2 (m0 ∈ m0 :: held)) by (left). reflexivity.
      * rewrite <- (Hother m Hne) in Hm.
        rewrite (IH x _ _ _ _ (Hbal x) Hrun m b Hm).
        rewrite (bool_decide_ext (m ∈ m0 :: held) (m ∈ held)); [reflexivity |].
        rewrite elem_of_cons. split; [intros [? | ?]; [contradiction | assumption] | auto].
    + destruct e; try discriminate. injection Ha as ->.
      destruct held as [| m' rest]; [contradiction |]. destruct Hbal as [-> Hbal].
      destruct (unlock_event _ _ _ _ He) as (Hheld & Hfree & Hother).
      destruct (decide (m = m0)) as [-> | Hne].
      * rewrite (IH x _ _ _ _ (Hbal x) Hrun m0 false Hfree).
        rewrite Hheld in Hm. injection Hm as <-.
        rewrite (bool_decide_eq_true_2 (m0 ∈ m0 :: rest)) by (left). reflexivity.
      * rewrite <- (Hother m Hne) in Hm.
        rewrite (IH x _ _ _ _ (Hbal x) Hrun m b Hm).
        rewrite (bool_decide_ext (m ∈ m0 :: rest) (m ∈ rest)); [reflexivity |].
        rewrite elem_of_cons. split; [intros [? | ?]; [contradiction | assumption] | auto].
    + apply (IH x held w1 a w' (Hbal x) Hrun).
      eapply other_event_keeps_locks; eauto.
Qed.

Ltac locks :=
  repeat first
    [ progress simpl
    | match goal with
      | |- _ /\ _ => split
      | |- _ = _ => reflexivity
      | |- forall _, _ => intro
      | |- balanced _ (if ?b then _ else _) => destruct b
      | |- balanced _ (bind (if ?b then _ else _) _) => destruct b
      | |- balanced _ (match ?x with _ => _ end) => destruct x
      | |- balanced _ _ => case_match
      end ].

Lemma op_balanced (o : Op) : balanced [] (op_prog o).
Proof.
  destruct o as [| | | | | | | | | | h rw | g];
    try destruct h; try destruct g; unfold_progs; locks.
Qed.

(** X1. Whatever operation of the package is run, from whatever world and
    with whatever pointers, if it returns then every mutex that existed
    when it started, held or free, is as it was. *)
Theorem operations_give_locks_back
    (o : Op) (w w' : World) (m : Mutex) (b : bool) :
  run (op_prog o) w = Ok tt w' ->
  lock_held w m = Some b ->
  lock_held w' m = Some b.
Proof.
  intros Hrun Hm.
  rewrite (balanced_run (op_prog o) [] w tt w' (op_balanced o) Hrun m b Hm).
  now rewrite andb_true_r.
Qed.

Lemma operations_give_locks_back_witness :
  lock_held (request_world true 10 10) readinessL = Some false /\
  (exists w',
      run (op_prog (op_handler (hcReadinessHandler (Some 0) (Some 0)) (Some 0)))
        (request_world true 10 10) = Ok tt w' /\
      lock_held w' readinessL = Some false /\
      lock_held w' startupL = Some false).
Proof.
  split; [reflexivity |].
  destruct (run (op_prog (op_handler (hcReadinessHandler (Some 0) (Some 0)) (Some 0)))
              (request_world true 10 10)) as [[] w' | | msg] eqn:Hrun.
  - exists w'. split; [reflexivity |].
    split; apply (operations_give_locks_back _ _ _ _ false Hrun); reflexivity.
  - vm_compute in Hrun. discriminate Hrun.
  - vm_compute in Hrun. discriminate Hrun.
Defined.

(** ** What the readiness predicates leave behind *)




(** X3. The readiness predicates of the two versions agree: on a [Server]
    and an [HC] with the same startup flag, with the same client and the
    locks free, [isReady] and [readinessTest] have the same outcome, result
    and final world alike. *)
Theorem readiness_versions_agree
    (w : World) (c s hc : nat) (cl : Client) (sv : Server) (h : HC) :
  clients w !! c = Some cl ->
  servers w !! s = Some sv ->
  startedL sv = false ->
  hcs w !! hc = Some h ->
  startupL_held w = false ->
  started sv = hc_started h ->
  run (isReady (Some c) (Some s)) w = run (readinessTest (Some c) (Some hc)) w.
Proof.
  intros Hc Hs Hsl Hh Hhl Heq.
  rewrite (isReady_outcome w c s sv cl Hs Hsl Hc).
  rewrite (readinessTest_outcome w c hc h cl Hh Hhl Hc).
  now rewrite Heq.
Qed.

Lemma readiness_versions_agree_witness :
  started <$> servers (probe_world true 4 5) !! 0
  = hc_started <$> hcs (probe_world true 4 5) !! 0 /\
  run (isReady (Some 0) (Some 0)) (probe_world true 4 5)
  = run (readinessTest (Some 0) (Some 0)) (probe_world true 4 5).
Proof.
  split; [reflexivity |].
  exact (readiness_versions_agree (probe_world true 4 5) 0 0 0 _ _ _
           eq_refl eq_refl eq_refl eq_refl eq_refl eq_refl).
Defined.

(** ** Nil pointers *)

(** X4. The methods of [Server] have no nil guard: [NotifyStarted] and
    [Close] on a nil receiver, and [isReady] on a nil server, panic with a
    nil dereference before doing anything else. [readinessTest], the lock
    being free, panics on a nil [HC]; on a nil client it panics once the
    startup flag is true, where it first reads the client. *)
Theorem nil_pointers_panic :
  (forall w, run (NotifyStarted None) w = nil_deref) /\
  (forall w ctx, run (Close None ctx) w = nil_deref) /\
  (forall w c, run (isReady c None) w = nil_deref) /\
  (forall w c,
      startupL_held w = false -> run (readinessTest c None) w = nil_deref) /\
  (forall w hc h,
      hcs w !! hc = Some h ->
      startupL_held w = false ->
      hc_started h = true ->
      run (readinessTest None (Some hc)) w = nil_deref).
Proof.
  split; [reflexivity |]. split; [reflexivity |]. split; [reflexivity |]. split.
  - intros w c Hl. unfold readinessTest. exec. reflexivity.
  - intros w hc h Hh Hl Hst. unfold readinessTest. exec. rewrite Hst. exec.
    reflexivity.
Qed.

Lemma nil_pointers_panic_witness :
  hc_started <$> hcs (probe_world true 0 0) !! 0 = Some true /\
  run (readinessTest None (Some 0)) (probe_world true 0 0) = nil_deref.
Proof.
  destruct nil_pointers_panic as (_ & _ & _ & _ & H).
  split; [reflexivity |].
  exact (H (probe_world true 0 0) 0 _ eq_refl eq_refl eq_refl).
Defined.

(** ** Notification, then a probe *)



(** ** The whole effect of the constructors *)

Lemma insert_twice_at_end {T : Type} (heap : list T) (x y z : T) :
  <[length heap := z]> (<[length heap := y]> (heap ++ [x])) = heap ++ [z].
Proof.
  rewrite list_insert_insert_eq.
  rewrite insert_app_r_alt by lia. now rewrite Nat.sub_diag.
Qed.

Lemma NewServer_on_free_port (w : World) (c : ptr) (port : string) :
  bind_error (netBusy w) (":" +:+ port) = None ->
  run (NewServer c port) w
  = Ok (Some (length (servers w)), None) (NewServer_bound w c port).
Proof.
  intros Hb. unfold NewServer, readinessPath, livenessPath, register.
  simpl in Hb. exec. rewrite insert_twice_at_end. reflexivity.
Qed.

Lemma NewServer_on_busy_port (w : World) (c : ptr) (port : string) (e : error) :
  bind_error (netBusy w) (":" +:+ port) = Some e ->
  run (NewServer c port) w = Ok (None, Some e) (NewServer_allocated w c port).
Proof.
  intros Hb. unfold NewServer, readinessPath, livenessPath, register.
  simpl in Hb. exec. rewrite insert_twice_at_end. reflexivity.
Qed.

Lemma NewHealthCheck_on_free_routes (w : World) (c : ptr) :
  registered (DefaultServeMux w) readinessPath = false ->
  registered (DefaultServeMux w) livenessPath = false ->
  run (NewHealthCheck c) w
  = Ok (Some (length (hcs w))) (NewHealthCheck_done w c).
Proof.
  intros Hr Hl. unfold NewHealthCheck. exec.
  rewrite (register_free _ readinessPath _ eq_refl Hr). exec.
  rewrite (register_free _ livenessPath) by
    (try reflexivity; rewrite registered_app, Hl; reflexivity).
  exec. unfold NewHealthCheck_done, fresh_default_routes.
  now rewrite <- app_assoc.
Qed.

Lemma NewHealthCheck_on_taken_route (w : World) (c : ptr) :
  registered (DefaultServeMux w) readinessPath
  || registered (DefaultServeMux w) livenessPath = true ->
  run (NewHealthCheck c) w = Panic registration_panic.
Proof.
  intros H. unfold NewHealthCheck.
  destruct (registered (DefaultServeMux w) readinessPath) eqn:Hr.
  - exec. unfold register. exec. reflexivity.
  - simpl in H. exec.
    rewrite (register_free _ readinessPath _ eq_refl Hr). exec.
    unfold register. exec. rewrite registered_app, H. exec. reflexivity.
Qed.

(** X6. [NewServer] always returns, and its whole effect is this. It
    allocates a mux holding exactly the readiness route, whose closure has
    captured the client and the new [Server], and the liveness route; an
    [http.Server] with address ":" followed by the port and that mux as its
    handler; and a [Server] that is unlocked and not started. Where the bind
    succeeds it returns the [Server], the address is taken and one serving
    goroutine on the new listener is queued. Where the bind fails it returns
    nil and the error, and the three objects stay allocated with nothing
    queued. Nothing else in the world changes. *)
Theorem NewServer_effect (w : World) (c : ptr) (port : string) :
  run (NewServer c port) w
  = match bind_error (netBusy w) (":" +:+ port) with
    | None => Ok (Some (length (servers w)), None) (NewServer_bound w c port)
    | Some e => Ok (None, Some e) (NewServer_allocated w c port)
    end.
Proof.
  destruct (bind_error (netBusy w) (":" +:+ port)) as [e |] eqn:Hb.
  - now apply NewServer_on_busy_port.
  - now apply NewServer_on_free_port.
Qed.



(** X8. [NewHealthCheck] registers on the process-wide [DefaultServeMux].
    Where both of its routes are free it returns a live, not started [HC];
    its whole effect is that [HC], an [http.Server] for ":8080" with a nil
    handler, the two routes appended after the routes that were there, and
    one queued goroutine; no address is bound. Where either route is taken
    it panics in the registration. *)
Theorem NewHealthCheck_effect (w : World) (c : ptr) :
  run (NewHealthCheck c) w
  = if registered (DefaultServeMux w) readinessPath
       || registered (DefaultServeMux w) livenessPath
    then Panic registration_panic
    else Ok (Some (length (hcs w))) (NewHealthCheck_done w c).
Proof.
  destruct (registered (DefaultServeMux w) readinessPath
            || registered (DefaultServeMux w) livenessPath) eqn:H.
  - now apply NewHealthCheck_on_taken_route.
  - apply orb_false_iff in H as [Hr Hl].
    now apply NewHealthCheck_on_free_routes.
Qed.

(** X9. [NewHealthCheck] cannot be called twice in one process: whatever
    the world and the clients, a second call after a first panics in the
    registration of its routes, which the first call has taken. *)
Theorem NewHealthCheck_twice_panics (w : World) (c c' : ptr) :
  run (NewHealthCheck c ;; NewHealthCheck c') w = Panic registration_panic.
Proof.
  rewrite run_bind.
  destruct (registered (DefaultServeMux w) readinessPath
            || registered (DefaultServeMux w) livenessPath) eqn:H.
  { now rewrite (NewHealthCheck_on_taken_route w c H). }
  apply orb_false_iff in H as [Hr Hl].
  rewrite (NewHealthCheck_on_free_routes w c Hr Hl).
  apply NewHealthCheck_on_taken_route. simpl.
  unfold fresh_default_routes, registered. rewrite existsb_app. simpl.
  now rewrite orb_true_r.
Qed.

(** ** A fresh server is not ready *)

Lemma readinessHandler_before_start
    (w : World) (c : ptr) (s rw : nat) (sv : Server) :
  servers w !! s = Some sv ->
  startedL sv = false ->
  started sv = false ->
  responses w !! rw = Some fresh_response ->
  response_after (run (readinessHandler_body c (Some s) (Some rw)) w) rw
  = Some (answer false "ok" "error").
Proof.
  intros Hs Hl Hst Hr. unfold readinessHandler_body.
  rewrite run_bind, (isReady_before_start w c s sv Hs Hl Hst).
  simpl negb. cbv iota. rewrite write_answer by (simpl; trivial; lia).
  simpl. apply list_lookup_insert_eq. eapply lookup_lt_Some; eauto.
Qed.

Lemma hcReadinessHandler_before_start
    (w : World) (c : ptr) (hc rw : nat) (h : HC) :
  hcs w !! hc = Some h ->
  startupL_held w = false ->
  readinessL_held w = false ->
  hc_started h = false ->
  responses w !! rw = Some fresh_response ->
  response_after (run (hcReadinessHandler_body c (Some hc) (Some rw)) w) rw
  = Some (answer false ("ok" +:+ LF) ("error" +:+ LF)).
Proof.
  intros Hh Hsl Hrl Hst Hr. unfold hcReadinessHandler_body, readinessTest.
  exec. rewrite Hst. exec. reflexivity.
Qed.

(** X10. A server that has just been constructed is not ready. Where its
    bind succeeds, a readiness probe served right after [NewServer] answers
    500 with body "error"; where its routes are free and the package locks
    are free, a readiness probe served right after [NewHealthCheck] answers
    500 with body "error" and a line feed. This holds for every client
    pointer, nil included, since the client is not looked at. *)
Theorem fresh_server_is_not_ready
    (w : World) (c : ptr) (port : string) (rw : nat) :
  bind_error (netBusy w) (":" +:+ port) = None ->
  registered (DefaultServeMux w) readinessPath = false ->
  registered (DefaultServeMux w) livenessPath = false ->
  startupL_held w = false ->
  readinessL_held w = false ->
  responses w !! rw = Some fresh_response ->
  response_after
    (run (r <- NewServer c port ;; readinessHandler_body c (fst r) (Some rw)) w) rw
  = Some (answer false "ok" "error") /\
  response_after
    (run (hc <- NewHealthCheck c ;; hcReadinessHandler_body c hc (Some rw)) w) rw
  = Some (answer false ("ok" +:+ LF) ("error" +:+ LF)).
Proof.
  intros Hb Hr Hl Hsl Hrl Hrw. split.
  - rewrite run_bind, (NewServer_on_free_port w c port Hb). simpl fst.
    apply (readinessHandler_before_start _ c _ rw (fresh_Server w port));
      try reflexivity; try assumption.
    simpl. now apply list_lookup_middle.
  - rewrite run_bind, (NewHealthCheck_on_free_routes w c Hr Hl).
    apply (hcReadinessHandler_before_start _ c _ rw (fresh_HC w));
      try reflexivity; try assumption.
    simpl. now apply list_lookup_middle.
Qed.

Lemma fresh_server_is_not_ready_witness :
  responses scenario_world !! 0 = Some fresh_response /\
  response_after
    (run (r <- NewServer None "8080" ;; readinessHandler_body None (fst r) (Some 0))
       scenario_world) 0
  = Some {| status := Some 500%Z; body := "error" |}.
Proof.
  split; [reflexivity |].
  destruct (fresh_server_is_not_ready scenario_world None "8080" 0
              eq_refl eq_refl eq_refl eq_refl eq_refl eq_refl) as [H _].
  exact H.
Defined.

(** ** The whole effect of the probe handlers *)

(** X11. With valid pointers, the lock free and a fresh response writer,
    the handlers of [NewServer] change nothing but the response and the
    log: the readiness handler writes its answer and logs what [isReady]
    logs, the liveness handler writes its answer and logs nothing. *)
Theorem Server_handlers_effect
    (w : World) (c s rw : nat) (cl : Client) (sv : Server) :
  clients w !! c = Some cl ->
  servers w !! s = Some sv ->
  startedL sv = false ->
  responses w !! rw = Some fresh_response ->
  let ready :=
    readiness_spec (started sv) (ConnectionsCounter cl) (MaxConnections cl) in
  run (readinessHandler_body (Some c) (Some s) (Some rw)) w
  = Ok tt
      (with_responses (<[rw := answer ready "ok" "error"]> (responses w))
         (with_logged
            (logged w ++
             readiness_log (started sv) (ConnectionsCounter cl) (MaxConnections cl))
            w)) /\
  run (livenessHandler_body (Some rw)) w
  = Ok tt (with_responses (<[rw := answer true "ok" "error"]> (responses w)) w).
Proof.
  intros Hc Hs Hl Hr ready. subst ready. split.
  - unfold readinessHandler_body.
    rewrite run_bind, (isReady_outcome w c s sv cl Hs Hl Hc).
    destruct (readiness_spec _ _ _); simpl negb; cbv iota;
      now rewrite write_answer by (simpl; trivial; lia).
  - now apply livenessHandler_outcome.
Qed.

Lemma Server_handlers_effect_witness :
  responses (request_world true 10 10) !! 0 = Some fresh_response /\
  logged <$>
    final (run (readinessHandler_body (Some 0) (Some 0) (Some 0))
             (request_world true 10 10))
  = Some [at_limit_msg 10].
Proof.
  split; [reflexivity |].
  destruct (Server_handlers_effect (request_world true 10 10) 0 0 0 _ _
              eq_refl eq_refl eq_refl eq_refl) as [H _].
  cbv zeta in H. rewrite H. reflexivity.
Defined.

(** X12. With valid pointers, the locks free and a fresh response writer,
    the handlers of [NewHealthCheck] change, besides the response and the
    log, one field of the [HC]: the readiness handler leaves the value
    [readinessTest] returned in [hc.ready], the liveness handler leaves true
    in [hc.live]; the locks are free again and nothing else has changed. *)
Theorem HC_handlers_effect
    (w : World) (c hc rw : nat) (cl : Client) (h : HC) :
  clients w !! c = Some cl ->
  hcs w !! hc = Some h ->
  startupL_held w = false ->
  readinessL_held w = false ->
  livenessL_held w = false ->
  responses w !! rw = Some fresh_response ->
  let ready :=
    readiness_spec (hc_started h) (ConnectionsCounter cl) (MaxConnections cl) in
  run (hcReadinessHandler_body (Some c) (Some hc) (Some rw)) w
  = Ok tt
      (with_responses
         (<[rw := answer ready ("ok" +:+ LF) ("error" +:+ LF)]> (responses w))
         (with_hcs (<[hc := set_hc_ready ready h]> (hcs w))
            (with_logged
               (logged w ++
                readiness_log (hc_started h) (ConnectionsCounter cl)
                  (MaxConnections cl))
               w))) /\
  run (hcLivenessHandler_body (Some hc) (Some rw)) w
  = Ok tt
      (with_responses
         (<[rw := answer true ("ok" +:+ LF) ("error" +:+ LF)]> (responses w))
         (with_hcs (<[hc := set_hc_live true h]> (hcs w)) w)).
Proof.
  intros Hc Hh Hsl Hrl Hll Hr ready. subst ready. split.
  - unfold hcReadinessHandler_body.
    cbn [bind call]. cbn [run handle mutex_lock]. rewrite Hrl.
    rewrite run_bind.
    rewrite (readinessTest_outcome (with_readinessL true w) c hc h cl Hh Hsl Hc).
    set (b := readiness_spec _ _ _). set (lg := readiness_log _ _ _).
    exec. destruct b; exec; rewrite list_insert_insert_eq;
      destruct w; simpl in *; subst; reflexivity.
  - unfold hcLivenessHandler_body, livenessTest. exec.
    rewrite list_insert_insert_eq. destruct w; simpl in *; subst; reflexivity.
Qed.

Lemma HC_handlers_effect_witness :
  responses (request_world true 9 10) !! 0 = Some fresh_response /\
  (fun w => hc_ready <$> hcs w !! 0) <$>
    final (run (hcReadinessHandler_body (Some 0) (Some 0) (Some 0))
             (request_world true 9 10))
  = Some (Some true).
Proof.
  split; [reflexivity |].
  destruct (HC_handlers_effect (request_world true 9 10) 0 0 0 _ _
              eq_refl eq_refl eq_refl eq_refl eq_refl eq_refl) as [H _].
  cbv zeta in H. rewrite H. reflexivity.
Defined.

(** ** Serving a probe never touches the startup state *)

Lemma probe_event_frame {X : Type} (e : Event X) (w w' : World) (x : X) :
  probe_event e = true -> handle e w = Ok x w' ->
  same_startup_and_collaborator w w'.
Proof.
  intros Hq He. destruct e; simpl in Hq; try discriminate;
    unfold_handle He; unfold same_startup_and_collaborator; simpl;
    repeat split; try reflexivity;
    eapply fmap_insert_same; eauto.
Qed.

Lemma handler_only_probes (h : HandlerFunc) (rw : ptr) :
  all_events (@probe_event) (handler_body h rw).
Proof. destruct h; unfold_progs; events. Qed.

(** X13. Whatever pointers a probe handler has captured and whatever the
    world, every state it passes through, whether it goes on to return, to
    block or to panic, has the startup flags of all objects and the clients
    as they were: serving a probe changes neither the startup state nor the
    collaborator. *)
Theorem probes_keep_startup_state
    (h : HandlerFunc) (rw : ptr) (w w' : World) (p' : Prog unit) :
  tsteps (handler_body h rw) w p' w' ->
  same_startup_and_collaborator w w'.
Proof.
  intros Hsteps.
  apply (tsteps_all_events (@probe_event) same_startup_and_collaborator
           frame_refl frame_trans
           (fun X e w x w' => probe_event_frame e w w' x)
           (handler_body h rw) p' w w' (handler_only_probes h rw) Hsteps).
Qed.

Lemma probes_keep_startup_state_witness :
  exists w',
    run (handler_body (hcReadinessHandler (Some 0) (Some 0)) (Some 0))
      (request_world true 9 10) = Ok tt w' /\
    same_startup_and_collaborator (request_world true 9 10) w'.
Proof.
  destruct (run (handler_body (hcReadinessHandler (Some 0) (Some 0)) (Some 0))
              (request_world true 9 10)) as [[] w' | | msg] eqn:Hrun.
  - exists w'. split; [reflexivity |].
    apply (probes_keep_startup_state
             (hcReadinessHandler (Some 0) (Some 0)) (Some 0) _ _ (Ret tt)).
    now apply run_tsteps.
  - vm_compute in Hrun. discriminate Hrun.
  - vm_compute in Hrun. discriminate Hrun.
Defined.

(** ** The goroutines the constructors start *)



Lemma listenAndServeTask_when_shutting_down
    (w : World) (l : nat) (hs : http_Server) :
  httpServers w !! l = Some hs ->
  inShutdown hs = true ->
  run (listenAndServeTask_body (Some l)) w = Ok tt w.
Proof.
  intros Hs Hd. unfold listenAndServeTask_body, http_ListenAndServe.
  exec. reflexivity.
Qed.



(** X15. The goroutine started by [NewHealthCheck] is where the port is
    bound. On a server that is already shutting down it returns at once,
    having bound and logged nothing. Otherwise it binds the address of the
    server, ":http" when that is empty: where the bind fails it logs the
    failure and returns, and where it succeeds it serves, which does not
    return while no accept fails. *)
Theorem listenAndServeTask_outcome
    (w : World) (l : nat) (hs : http_Server) :
  httpServers w !! l = Some hs ->
  (inShutdown hs = true ->
   run (listenAndServeTask_body (Some l)) w = Ok tt w) /\
  (inShutdown hs = false ->
   forall e,
     bind_error (netBusy w) (listen_addr hs) = Some e ->
     run (listenAndServeTask_body (Some l)) w
     = Ok tt (with_logged (logged w ++ [start_failed_msg e]) w)) /\
  (inShutdown hs = false ->
   bind_error (netBusy w) (listen_addr hs) = None ->
   acceptErr hs = None ->
   run (listenAndServeTask_body (Some l)) w = Blocked).
Proof.
  intros Hs. split; [now apply listenAndServeTask_when_shutting_down |].
  unfold listenAndServeTask_body, http_ListenAndServe, listen_addr. split.
  - intros Hd e Hb. destruct (bind_error_is_OS _ _ _ Hb) as [msg ->].
    exec. reflexivity.
  - intros Hd Hb Ha. unfold http_Serve. exec. rewrite Ha. reflexivity.
Qed.

Lemma listenAndServeTask_outcome_witness :
  bind_error (netBusy (closing_world None (Some 0))) portNum
  = Some (ErrOS EADDRINUSE) /\
  logged <$>
    final (run (listenAndServeTask_body (Some 0)) (closing_world None (Some 0)))
  = Some [start_failed_msg (ErrOS EADDRINUSE)].
Proof.
  split; [reflexivity |].
  destruct (listenAndServeTask_outcome (closing_world None (Some 0)) 0 _ eq_refl)
    as (_ & H & _).
  rewrite (H eq_refl (ErrOS EADDRINUSE) eq_refl). reflexivity.
Defined.

(** ** Shutdown and the goroutines *)





(** ** A probe that panics *)

(** X17. The readiness handler of [NewHealthCheck] unlocks [readinessL] by
    hand on its two branches and has no deferred unlock. So where
    [readinessTest] panics inside it, as it does with a nil client once
    startup has finished, the handler stops while holding [readinessL], the
    world otherwise as it was, and from that world every readiness handler
    blocks on its first instruction. *)
Theorem panicking_probe_keeps_readinessL
    (w : World) (hc : nat) (rw : ptr) (h : HC) :
  hcs w !! hc = Some h ->
  hc_started h = true ->
  startupL_held w = false ->
  readinessL_held w = false ->
  run (hcReadinessHandler_body None (Some hc) rw) w = nil_deref /\
  (exists p',
      tsteps (hcReadinessHandler_body None (Some hc) rw) w
        p' (with_readinessL true w) /\
      tstep p' (with_readinessL true w) = None /\
      run p' (with_readinessL true w) = nil_deref) /\
  (forall c' hc' rw',
      run (hcReadinessHandler_body c' hc' rw') (with_readinessL true w) = Blocked).
Proof.
  intros Hh Hst Hsl Hrl.
  assert (Hw : with_startupL false (with_startupL true (with_readinessL true w))
               = with_readinessL true w)
    by (destruct w; simpl in *; now subst).
  split; [| split].
  - unfold hcReadinessHandler_body, readinessTest. exec. rewrite Hst. exec.
    reflexivity.
  - eexists. split.
    + unfold hcReadinessHandler_body, readinessTest.
      eapply tsteps_step; [exec; reflexivity |].
      eapply tsteps_step; [exec; reflexivity |].
      eapply tsteps_step; [exec; reflexivity |].
      rewrite Hst. cbn [negb].
      eapply tsteps_step; [exec; reflexivity |].
      rewrite Hw. apply tsteps_refl.
    + split; reflexivity.
  - intros c' hc' rw'. reflexivity.
Qed.

Lemma panicking_probe_keeps_readinessL_witness :
  hc_started <$> hcs (request_world true 0 0) !! 0 = Some true /\
  run (hcReadinessHandler_body None (Some 0) (Some 0)) (request_world true 0 0)
  = nil_deref /\
  run (hcReadinessHandler_body (Some 0) (Some 0) (Some 0))
    (with_readinessL true (request_world true 0 0))
  = Blocked.
Proof.
  destruct (panicking_probe_keeps_readinessL (request_world true 0 0) 0 (Some 0) _
              eq_refl eq_refl eq_refl eq_refl) as (H1 & _ & H3).
  split; [reflexivity |]. split; [exact H1 | apply H3].
Defined.

(** ** Readiness and the number of connections *)



